(** * config_merger: deep merge of nested mappings and template resolution

    A shallow embedding of [config_merger.py]: the Python objects that flow
    through [update_dict_subkeys], [replace_template_variables],
    [VariableOverlay.get] and [merge], the exceptions those functions can
    raise, and the properties of the merge and of the template resolver. *)

From Stdlib Require Import List String Ascii ZArith Bool Arith Lia.
From Stdlib Require Import DecimalString.
Import ListNotations.

Set Warnings "-register-all".

Open Scope list_scope.
Open Scope string_scope.

(** ** Python objects

    The objects a configuration can hold after it was read from JSON, plus
    the [set] objects that the ['and'] and ['or'] combinators build.  A
    mapping is a list of items in insertion order (keys are unique in a
    well-formed mapping); a string is a sequence of code points below 256.
    Floating point numbers are left out.  A [set] is kept as the list of its
    elements: the order in which CPython iterates over a set, and which of
    two equal elements ([1] and [True]) it keeps, are not part of the
    model. *)

Inductive value : Type :=
| VNone
| VBool (b : bool)
| VInt (z : Z)
| VStr (s : string)
| VList (l : list value)
| VDict (items : list (string * value))
| VSet (elems : list value).

Definition dict := list (string * value).

(** Induction on a value together with the values nested in it. *)
Section ValueInduction.
Variable P : value -> Prop.
Hypothesis HNone : P VNone.
Hypothesis HBool : forall b, P (VBool b).
Hypothesis HInt : forall z, P (VInt z).
Hypothesis HStr : forall s, P (VStr s).
Hypothesis HList : forall l, Forall P l -> P (VList l).
Hypothesis HDict : forall items, Forall (fun kv => P (snd kv)) items -> P (VDict items).
Hypothesis HSet : forall l, Forall P l -> P (VSet l).

Fixpoint value_nested_ind (v : value) : P v :=
  match v with
  | VNone => HNone
  | VBool b => HBool b
  | VInt z => HInt z
  | VStr s => HStr s
  | VList l =>
      HList l
        ((fix go (l : list value) : Forall P l :=
            match l with
            | [] => Forall_nil P
            | x :: l' => Forall_cons x (value_nested_ind x) (go l')
            end) l)
  | VDict items =>
      HDict items
        ((fix go (items : list (string * value))
            : Forall (fun kv => P (snd kv)) items :=
            match items with
            | [] => Forall_nil _
            | kv :: rest =>
                Forall_cons kv (value_nested_ind (snd kv)) (go rest)
            end) items)
  | VSet l =>
      HSet l
        ((fix go (l : list value) : Forall P l :=
            match l with
            | [] => Forall_nil P
            | x :: l' => Forall_cons x (value_nested_ind x) (go l')
            end) l)
  end.
End ValueInduction.

(** The exceptions raised by the built-in operations the program uses. *)
Inductive exn : Type :=
| TypeError
| AttributeError
| KeyError
| AssertionError.

Inductive result (A : Type) : Type :=
| Ok (a : A)
| Raise (e : exn).
Arguments Ok {A} a.
Arguments Raise {A} e.

Definition bind {A B} (m : result A) (k : A -> result B) : result B :=
  match m with
  | Ok a => k a
  | Raise e => Raise e
  end.

Notation "x <- m ;; k" := (bind m (fun x => k))
  (at level 61, m at next level, right associativity).
Notation "' p <- m ;; k" := (bind m (fun x => let 'p := x in k))
  (at level 61, p pattern, m at next level, right associativity).

Definition is_ok {A} (m : result A) : bool :=
  match m with Ok _ => true | Raise _ => false end.

(** *** dict operations *)

(** [d.get(k)]: the value bound to [k], if any. *)
Fixpoint dict_get (d : dict) (k : string) : option value :=
  match d with
  | [] => None
  | (k', v) :: d' => if String.eqb k' k then Some v else dict_get d' k
  end.

(** [d.get(k, default)]. *)
Definition dict_get_default (d : dict) (k : string) (default : value) : value :=
  match dict_get d k with
  | Some v => v
  | None => default
  end.

(** [k in d]. *)
Definition dict_mem (d : dict) (k : string) : bool :=
  match dict_get d k with Some _ => true | None => false end.

(** [d[k] = v]: an existing key keeps its place, a new key goes last. *)
Fixpoint dict_set (d : dict) (k : string) (v : value) : dict :=
  match d with
  | [] => [(k, v)]
  | (k', v') :: d' =>
      if String.eqb k' k then (k, v) :: d' else (k', v') :: dict_set d' k v
  end.

(** The items left in [d] once [k] has been popped. *)
Fixpoint dict_remove (d : dict) (k : string) : dict :=
  match d with
  | [] => []
  | (k', v) :: d' =>
      if String.eqb k' k then dict_remove d' k else (k', v) :: dict_remove d' k
  end.

(** [{**a, **b}]: the items of [a], then those of [b] written over them. *)
Definition dict_update (a b : dict) : dict :=
  fold_left (fun acc kv => dict_set acc (fst kv) (snd kv)) b a.

Definition dict_keys (d : dict) : list string := map fst d.

(** [x.pop(key, default)] on an arbitrary object: only a dict has a
    two-argument [pop]; [list.pop] and [set.pop] refuse the second argument,
    the scalars have no [pop] at all. *)
Definition py_pop (x : value) (key : string) (default : value)
  : result (value * dict) :=
  match x with
  | VDict d => Ok (dict_get_default d key default, dict_remove d key)
  | VList _ | VSet _ => Raise TypeError
  | VNone | VBool _ | VInt _ | VStr _ => Raise AttributeError
  end.

(** [**x] inside a dict display: [x] has to be a mapping. *)
Definition py_unpack_mapping (x : value) : result dict :=
  match x with
  | VDict d => Ok d
  | _ => Raise TypeError
  end.

(** *** Hashing and equality of set elements *)

Inductive hkey : Type :=
| KNone
| KInt (z : Z)
| KStr (s : string).

(** The hashable objects, up to Python's [==]: [True == 1] and
    [False == 0]; lists, dicts and sets are unhashable. *)
Definition py_hash (v : value) : option hkey :=
  match v with
  | VNone => Some KNone
  | VBool b => Some (KInt (if b then 1 else 0))
  | VInt z => Some (KInt z)
  | VStr s => Some (KStr s)
  | VList _ | VDict _ | VSet _ => None
  end.

Definition hkey_eqb (a b : hkey) : bool :=
  match a, b with
  | KNone, KNone => true
  | KInt x, KInt y => Z.eqb x y
  | KStr x, KStr y => String.eqb x y
  | _, _ => false
  end.

(** [x == y] for two objects, as far as set membership needs it. *)
Definition py_eqb (x y : value) : bool :=
  match py_hash x, py_hash y with
  | Some a, Some b => hkey_eqb a b
  | _, _ => false
  end.

(** [x in s] for the elements [s] of a set. *)
Definition set_mem (x : value) (s : list value) : bool :=
  existsb (py_eqb x) s.

(** Adding the elements of an iterable to a set one by one: an element equal
    to one already present is dropped, an unhashable one raises. *)
Fixpoint set_add_all (acc : list value) (l : list value) : result (list value) :=
  match l with
  | [] => Ok acc
  | x :: l' =>
      match py_hash x with
      | None => Raise TypeError
      | Some _ =>
          if set_mem x acc then set_add_all acc l'
          else set_add_all (acc ++ [x])%list l'
      end
  end.

Fixpoint chars_of (s : string) : list value :=
  match s with
  | EmptyString => []
  | String c s' => VStr (String c EmptyString) :: chars_of s'
  end.

(** [set(x)]: the elements of a list or set, the characters of a string, the
    keys of a dict; the other scalars are not iterable. *)
Definition py_set (x : value) : result (list value) :=
  match x with
  | VList l => set_add_all [] l
  | VSet s => Ok s
  | VStr s => set_add_all [] (chars_of s)
  | VDict d => set_add_all [] (map VStr (dict_keys d))
  | VNone | VBool _ | VInt _ => Raise TypeError
  end.

(** [a & b] and [a | b] on sets. *)
Definition set_inter (a b : list value) : list value :=
  filter (fun x => set_mem x b) a.

Definition set_union (a b : list value) : list value :=
  (a ++ filter (fun x => negb (set_mem x a)) b)%list.

(** ** The deep merger *)

Definition DEFAULT_METADATA_KEY : string := "__CONFIG-MERGER-META__".

(** The keyword options that [update_dict_subkeys] hands on to its recursive
    calls.  [none_values_are_transparent] is a named parameter of the
    function and therefore not among them. *)
Record options : Type := { opt_metadata_key : option string }.

Definition no_options : options := {| opt_metadata_key := None |}.

(** [options.get('metadata_key', DEFAULT_METADATA_KEY)] *)
Definition metadata_key (o : options) : string :=
  match opt_metadata_key o with
  | Some k => k
  | None => DEFAULT_METADATA_KEY
  end.

(** [a + b] where [b] is a list or a set: only two lists can be added. *)
Definition py_add (a b : value) : result value :=
  match a, b with
  | VList x, VList y => Ok (VList (x ++ y)%list)
  | _, _ => Raise TypeError
  end.

Definition combine_concat (a b : value) : result value := py_add a b.
Definition combine_keep (a b : value) : result value := Ok a.
Definition combine_replace (a b : value) : result value := Ok b.
Definition combine_and (a b : value) : result value :=
  sa <- py_set a ;; sb <- py_set b ;; Ok (VSet (set_inter sa sb)).
Definition combine_or (a b : value) : result value :=
  sa <- py_set a ;; sb <- py_set b ;; Ok (VSet (set_union sa sb)).

(** [META_funcs['combine'][name]]: an unknown name is a [KeyError], an
    unhashable one a [TypeError]. *)
Definition META_funcs_combine (name : value)
  : result (value -> value -> result value) :=
  match name with
  | VStr s =>
      if String.eqb s "concat" then Ok combine_concat
      else if String.eqb s "keep" then Ok combine_keep
      else if String.eqb s "replace" then Ok combine_replace
      else if String.eqb s "and" then Ok combine_and
      else if String.eqb s "or" then Ok combine_or
      else Raise KeyError
  | VNone | VBool _ | VInt _ => Raise KeyError
  | VList _ | VDict _ | VSet _ => Raise TypeError
  end.

(** [update_dict_subkeys(d, u, none_values_are_transparent, **options)].

    [d] is updated in place in the source and returned; here the updated
    mapping is the result.  [d] and [u] are taken to be two objects that
    share no mapping, as they are when they come from two sources: what the
    call does to [u] (see [update_popped] below) is then not seen through
    [d].  The loop runs over the items of [u] after the metadata key was
    popped from it, which the inner loop renders by passing over that key.
    The recursive call receives [**options] only, so that it runs with
    [none_values_are_transparent] at its default, [False]. *)
Fixpoint update_dict_subkeys (o : options) (d : value) (u : value)
    (none_values_are_transparent : bool) {struct u} : result value :=
  let mk := metadata_key o in
  '(dmeta, d0) <- py_pop d mk (VDict []) ;;
  dm <- py_unpack_mapping dmeta ;;
  match u with
  | VDict uitems =>
      um <- py_unpack_mapping (dict_get_default uitems mk (VDict [])) ;;
      let meta := dict_update dm um in
      (fix loop (items : list (string * value)) (d : dict) {struct items}
         : result value :=
         match items with
         | [] => Ok (VDict d)
         | (k, v) :: rest =>
             if String.eqb k mk then loop rest d
             else
               match v with
               | VDict _ =>
                   r <- update_dict_subkeys o
                          (dict_get_default d k (VDict [])) v false ;;
                   loop rest (dict_set d k r)
               | VList _ | VSet _ =>
                   f <- META_funcs_combine
                          (dict_get_default meta k (VStr "concat")) ;;
                   r <- f (dict_get_default d k (VList [])) v ;;
                   loop rest (dict_set d k r)
               | VNone | VBool _ | VInt _ | VStr _ =>
                   if none_values_are_transparent && dict_mem d k
                      && match v with VNone => true | _ => false end
                   then loop rest d
                   else loop rest (dict_set d k v)
               end
         end) uitems d0
  | VList _ | VSet _ => Raise TypeError
  | VNone | VBool _ | VInt _ | VStr _ => Raise AttributeError
  end.


(** ** Strings: [str()], [repr()], [re.findall] and [str.replace] *)

Definition char_quote : ascii := "039"%char.
Definition char_dquote : ascii := "034"%char.
Definition char_backslash : ascii := "092"%char.
Definition char_newline : ascii := "010"%char.
Definition char_tab : ascii := "009"%char.
Definition char_return : ascii := "013"%char.
Definition char_dollar : ascii := "$"%char.
Definition char_lbrace : ascii := "{"%char.
Definition char_rbrace : ascii := "}"%char.

Fixpoint str_contains_char (c : ascii) (s : string) : bool :=
  match s with
  | EmptyString => false
  | String c' s' => Ascii.eqb c' c || str_contains_char c s'
  end.

Definition hex_digit (n : nat) : ascii :=
  nth n (list_ascii_of_string "0123456789abcdef") "0"%char.

(** The code points below 256 that [repr] writes as they are. *)
Definition is_printable (c : ascii) : bool :=
  let n := nat_of_ascii c in
  negb ((n <? 32) || ((127 <=? n) && (n <=? 160)) || (n =? 173))%nat.

Definition repr_char (quote c : ascii) : string :=
  if Ascii.eqb c quote || Ascii.eqb c char_backslash
  then String char_backslash (String c EmptyString)
  else if Ascii.eqb c char_tab then String char_backslash "t"
  else if Ascii.eqb c char_newline then String char_backslash "n"
  else if Ascii.eqb c char_return then String char_backslash "r"
  else if is_printable c then String c EmptyString
  else
    let n := nat_of_ascii c in
    String char_backslash
      (String "x" (String (hex_digit (n / 16)) (String (hex_digit (n mod 16)) EmptyString))).

Fixpoint repr_chars (quote : ascii) (s : string) : string :=
  match s with
  | EmptyString => EmptyString
  | String c s' => repr_char quote c ++ repr_chars quote s'
  end.

(** [repr(s)] of a string: single quotes, unless the string holds a single
    quote and no double quote. *)
Definition repr_str (s : string) : string :=
  let quote :=
    if str_contains_char char_quote s && negb (str_contains_char char_dquote s)
    then char_dquote else char_quote in
  String quote (repr_chars quote s ++ String quote EmptyString).

Definition str_of_int (z : Z) : string := NilZero.string_of_int (Z.to_int z).

Fixpoint py_repr (v : value) : string :=
  match v with
  | VNone => "None"
  | VBool true => "True"
  | VBool false => "False"
  | VInt z => str_of_int z
  | VStr s => repr_str s
  | VList l => "[" ++ String.concat ", " (map py_repr l) ++ "]"
  | VDict d =>
      "{" ++ String.concat ", "
               (map (fun kv => let '(k, x) := kv in repr_str k ++ ": " ++ py_repr x) d)
          ++ "}"
  | VSet [] => "set()"
  | VSet l => "{" ++ String.concat ", " (map py_repr l) ++ "}"
  end.

(** [str(v)] *)
Definition py_str (v : value) : string :=
  match v with
  | VStr s => s
  | _ => py_repr v
  end.

(** [(.+?)}] once the first character of the group is taken: the group
    grows one character at a time until a closing brace follows; [.] does not
    match a newline. Returns the rest of the group. *)
Fixpoint lazy_group (s : string) : option string :=
  match s with
  | EmptyString => None
  | String c s' =>
      if Ascii.eqb c char_rbrace then Some EmptyString
      else if Ascii.eqb c char_newline then None
      else match lazy_group s' with
           | Some t => Some (String c t)
           | None => None
           end
  end.

(** [REGEX_TEMPLATE_VAR.match] at the head of [s]: the captured group. *)
Definition REGEX_TEMPLATE_VAR_match (s : string) : option string :=
  match s with
  | String c1 (String c2 (String c s')) =>
      if Ascii.eqb c1 char_dollar && Ascii.eqb c2 char_lbrace
         && negb (Ascii.eqb c char_newline)
      then match lazy_group s' with
           | Some t => Some (String c t)
           | None => None
           end
      else None
  | _ => None
  end.

(** [REGEX_TEMPLATE_VAR.findall(s)]: the groups of the matches found from
    left to right, the search going on after the end of each match.  [skip]
    counts the characters of the current match still to be passed. *)
Fixpoint findall_from (skip : nat) (s : string) : list string :=
  match s with
  | EmptyString => []
  | String c s' =>
      match skip with
      | S n => findall_from n s'
      | O =>
          match REGEX_TEMPLATE_VAR_match s with
          | Some t => t :: findall_from (String.length t + 2) s'
          | None => findall_from 0 s'
          end
      end
  end.

Definition REGEX_TEMPLATE_VAR_findall (s : string) : list string :=
  findall_from 0 s.

(** [TEMPLATE_REPLACEMENT % token] *)
Definition TEMPLATE_REPLACEMENT (token : string) : string :=
  "${" ++ token ++ "}".

(** [s.replace(old, new)] for a non-empty [old]: every occurrence of [old],
    found from left to right without overlap, becomes [new]. *)
Fixpoint replace_from (old new : string) (skip : nat) (s : string) : string :=
  match s with
  | EmptyString => EmptyString
  | String c s' =>
      match skip with
      | S n => replace_from old new n s'
      | O =>
          if String.prefix old s
          then new ++ replace_from old new (String.length old - 1) s'
          else String c (replace_from old new 0 s')
      end
  end.

Definition str_replace (s old new : string) : string :=
  replace_from old new 0 s.

(** ** The template resolver *)

(** An enclosing mapping, as it stands while one of its entries is being
    resolved, and the key of that entry.  The source resolves in place, so an
    enclosing mapping read during the resolution of a nested one shows the
    nested mapping in its current state: [frame_plug] puts it there. *)
Definition frame : Type := (dict * string)%type.

Definition frame_plug (f : frame) (child : value) : dict :=
  dict_set (fst f) (snd f) child.

(** Lookup in the enclosing scopes, nearest first, then in the flat
    replacements given by the caller of the outermost call. *)
Fixpoint parents_get (child : value) (parents : list frame) (flat : dict)
    (token : string) : option value :=
  match parents with
  | [] => dict_get flat token
  | f :: rest =>
      let here := frame_plug f child in
      match dict_get here token with
      | Some v => Some v
      | None => parents_get (VDict here) rest flat token
      end
  end.

(** [data_chain.get(token, '')] where [data_chain] is
    [ChainMap(data, flat_parent_replacements)]: the first mapping of the
    chain that has the key answers. *)
Definition data_chain_get (data : dict) (parents : list frame) (flat : dict)
    (token : string) : value :=
  match dict_get data token with
  | Some v => v
  | None =>
      match parents_get (VDict data) parents flat token with
      | Some v => v
      | None => VStr ""
      end
  end.

(** The inner function [_replace_template] of [replace_template_variables];
    [lookup] is [data_chain.get(_, '')]. *)
Definition _replace_template (lookup : string -> value) (v : value) : value :=
  match v with
  | VStr s =>
      VStr (fold_left
              (fun acc token =>
                 str_replace acc (TEMPLATE_REPLACEMENT token) (py_str (lookup token)))
              (REGEX_TEMPLATE_VAR_findall s) s)
  | _ => v
  end.

(** [replace_template_variables(data, flat_parent_replacements)].

    The loop runs over the items of [data] while [data] is updated in place;
    [cur] is the mapping as it stands.  A nested mapping is resolved with the
    chain of the current call as its parent; a list is rewritten by slice
    assignment, which a set does not support. *)
Fixpoint replace_template_variables (data : value) (parents : list frame)
    (flat : dict) {struct data} : result value :=
  match data with
  | VDict items =>
      (fix loop (items : list (string * value)) (cur : dict) {struct items}
         : result value :=
         match items with
         | [] => Ok (VDict cur)
         | (k, v) :: rest =>
             match v with
             | VStr _ =>
                 loop rest
                   (dict_set cur k (_replace_template (data_chain_get cur parents flat) v))
             | VDict _ =>
                 r <- replace_template_variables v ((cur, k) :: parents) flat ;;
                 loop rest (dict_set cur k r)
             | VList l =>
                 loop rest
                   (dict_set cur k
                      (VList (map (_replace_template (data_chain_get cur parents flat)) l)))
             | VSet _ => Raise TypeError
             | VNone | VBool _ | VInt _ => loop rest cur
             end
         end) items items
  | VNone | VBool _ | VInt _ | VStr _ | VList _ | VSet _ => Raise AttributeError
  end.

(** ** Loading and the public [merge] *)

(** Truth value of an object, as [assert source] tests it. *)
Definition py_truthy (v : value) : bool :=
  match v with
  | VNone => false
  | VBool b => b
  | VInt z => negb (Z.eqb z 0)
  | VStr s => negb (String.eqb s "")
  | VList l => match l with [] => false | _ => true end
  | VDict d => match d with [] => false | _ => true end
  | VSet l => match l with [] => false | _ => true end
  end.

(** [_load_data_from_source(source)].  A mapping is passed through; a string
    names an inline document, a file or a URL, whose reading and parsing are
    outside this development and stand behind [load_external]; any other
    object fails in the regular expression match. *)
Definition _load_data_from_source (load_external : string -> result value)
    (source : value) : result value :=
  if negb (py_truthy source) then Raise AssertionError
  else
    match source with
    | VDict _ => Ok source
    | VStr s => load_external s
    | _ => Raise TypeError
    end.

(** [_reduce_data_sources]: every keyword option,
    [none_values_are_transparent] included, goes to each top-level call of
    [update_dict_subkeys]. *)
Definition _reduce_data_sources (load_external : string -> result value)
    (sources : list value) (none_values_are_transparent : bool) (o : options)
  : result value :=
  fold_left
    (fun acc source =>
       a <- acc ;;
       u <- _load_data_from_source load_external source ;;
       update_dict_subkeys o a u none_values_are_transparent)
    sources (Ok (VDict [])).

(** [merge]: the sources are folded from the left into an empty mapping,
    then the templates of the result are resolved.  The sources are taken to
    be different objects. *)
Definition merge (load_external : string -> result value)
    (sources : list value) (none_values_are_transparent : bool) (o : options)
  : result value :=
  data <- _reduce_data_sources load_external sources none_values_are_transparent o ;;
  replace_template_variables data [] [].

(** No string source can be loaded. *)
Definition no_external (s : string) : result value := Raise TypeError.

(** ** The folder overlay *)

(** [u] once [update_dict_subkeys(d, u)] has returned: the call popped the
    metadata key from [u], and each recursive call did the same to the nested
    mapping it was given.  Nothing else of [u] is written to. *)
Fixpoint update_popped (mk : string) (u : value) : value :=
  match u with
  | VDict items =>
      VDict
        ((fix go (items : list (string * value)) : list (string * value) :=
            match items with
            | [] => []
            | (k, v) :: rest =>
                if String.eqb k mk then go rest
                else (k, update_popped mk v) :: go rest
            end) items)
  | _ => u
  end.

(** [functools.lru_cache(maxsize)]: the entries, most recently used first. *)
Section LruCache.
Context {K V : Type} (eqb : K -> K -> bool) (maxsize : nat).

Definition lru : Type := list (K * V).

Fixpoint lru_find (c : lru) (k : K) : option V :=
  match c with
  | [] => None
  | (k', v) :: c' => if eqb k' k then Some v else lru_find c' k
  end.

Definition lru_drop (c : lru) (k : K) : lru :=
  filter (fun e => negb (eqb (fst e) k)) c.

(** A hit makes the entry the most recent one. *)
Definition lru_hit (c : lru) (k : K) (v : V) : lru :=
  (k, v) :: lru_drop c k.

(** A miss stores the new result; a full cache loses its oldest entry. *)
Definition lru_store (c : lru) (k : K) (v : V) : lru :=
  (k, v) :: firstn (maxsize - 1) c.
End LruCache.

Definition CACHE_MAXSIZE : nat := 128.

Definition DEFAULT_FILENAME : string := "_default".

(** The folder tree under [self._path]: [fs folder name] is what
    [_load_data_from_source] makes of [<folder>/<name>.json], or [None] when
    there is no such file. *)
Definition file_tree : Type := string -> string -> option (result value).

Definition pair_eqb (a b : string * string) : bool :=
  String.eqb (fst a) (fst b) && String.eqb (snd a) (snd b).

Definition data_cache : Type := @lru (string * string) value.

(** [self._get_data(path, name)] behind its cache.  The cached object is the
    one handed out, so what a caller does to it is seen by later calls. *)
Definition _get_data (fs : file_tree) (c : data_cache) (path name : string)
  : result (value * data_cache) :=
  match lru_find pair_eqb c (path, name) with
  | Some v => Ok (v, lru_hit pair_eqb c (path, name) v)
  | None =>
      v <- match fs path name with
           | Some loaded => loaded
           | None => Ok (VDict [])
           end ;;
      Ok (v, lru_store CACHE_MAXSIZE c (path, name) v)
  end.

(** The argument [names] or [include_sub_folders] of [get]: one string, a
    tuple of strings, or a list of strings. *)
Inductive str_or_tuple : Type :=
| OneStr (s : string)
| Tuple (l : list string)
| AList (l : list string).

(** [(names, )] for a string, [tuple(names)] otherwise. *)
Definition as_tuple (a : str_or_tuple) : list string :=
  match a with
  | OneStr s => [s]
  | Tuple l => l
  | AList l => l
  end.

(** A list cannot be part of a cache key. *)
Definition hashable_arg (a : str_or_tuple) : bool :=
  match a with
  | AList _ => false
  | _ => true
  end.

Definition str_or_tuple_eqb (a b : str_or_tuple) : bool :=
  match a, b with
  | OneStr x, OneStr y => String.eqb x y
  | Tuple x, Tuple y =>
      if list_eq_dec string_dec x y then true else false
  | _, _ => false
  end.

Definition args_eqb (a b : str_or_tuple * str_or_tuple) : bool :=
  str_or_tuple_eqb (fst a) (fst b) && str_or_tuple_eqb (snd a) (snd b).

Record overlay_state : Type := {
  fragments : data_cache;
  results : @lru (str_or_tuple * str_or_tuple) value
}.

Definition fresh_state : overlay_state := {| fragments := []; results := [] |}.

(** One turn of the inner loop of [get]:
    [update_dict_subkeys(data, self._get_data(folder, name))].  The fragment
    is the cached object itself, which the merge leaves popped. *)
Definition get_step (fs : file_tree) (folder name : string)
    (acc : result (value * data_cache)) : result (value * data_cache) :=
  '(data, c) <- acc ;;
  '(u, c1) <- _get_data fs c folder name ;;
  data' <- update_dict_subkeys no_options data u false ;;
  Ok (data',
      lru_hit pair_eqb c1 (folder, name) (update_popped DEFAULT_METADATA_KEY u)).

(** The body of [VariableOverlay.get]. *)
Definition get_body (fs : file_tree) (c : data_cache)
    (names include_sub_folders : str_or_tuple) : result (value * data_cache) :=
  let include_sub_folders := "" :: as_tuple include_sub_folders in
  let names := DEFAULT_FILENAME :: as_tuple names in
  fold_left
    (fun acc folder =>
       fold_left (fun acc name => get_step fs folder name acc) names acc)
    include_sub_folders (Ok (VDict [], c)).

(** [VariableOverlay.get(names, include_sub_folders)] behind its own cache,
    whose key is made of the arguments as they are given (here always in the
    same way, by position or by keyword): an argument that is a list cannot
    be hashed.  An exception ends the run: the state is followed along
    returning calls only. *)
Definition VariableOverlay_get (fs : file_tree) (st : overlay_state)
    (names include_sub_folders : str_or_tuple) : result (value * overlay_state) :=
  if negb (hashable_arg names && hashable_arg include_sub_folders)
  then Raise TypeError
  else
    let key := (names, include_sub_folders) in
    match lru_find args_eqb (results st) key with
    | Some data =>
        Ok (data, {| fragments := fragments st;
                     results := lru_hit args_eqb (results st) key data |})
    | None =>
        '(data, c) <- get_body fs (fragments st) names include_sub_folders ;;
        Ok (data, {| fragments := c;
                     results := lru_store CACHE_MAXSIZE (results st) key data |})
    end.

(** ** The env format *)

(** The code points below 256 that [str.lstrip()] takes for white space. *)
Definition is_space (c : ascii) : bool :=
  let n := nat_of_ascii c in
  (((9 <=? n) && (n <=? 13)) || ((28 <=? n) && (n <=? 32))
   || (n =? 133) || (n =? 160))%nat.

(** [s.lstrip()] *)
Fixpoint lstrip (s : string) : string :=
  match s with
  | EmptyString => EmptyString
  | String c s' => if is_space c then lstrip s' else s
  end.

(** [s.startswith(c)] for a single character. *)
Definition startswith_char (c : ascii) (s : string) : bool :=
  match s with
  | String c' _ => Ascii.eqb c' c
  | EmptyString => false
  end.

(** [s.split(sep, maxsplit=1)] when it has two parts: what stands before
    the first [sep] and what stands after it. *)
Fixpoint split_once (sep : ascii) (s : string) : option (string * string) :=
  match s with
  | EmptyString => None
  | String c s' =>
      if Ascii.eqb c sep then Some (EmptyString, s')
      else
        match split_once sep s' with
        | Some (a, b) => Some (String c a, b)
        | None => None
        end
  end.

(** [s.split('\n')]: never empty, the last element is what follows the last
    newline. *)
Fixpoint split_lines (s : string) : list string :=
  match s with
  | EmptyString => [EmptyString]
  | String c s' =>
      if Ascii.eqb c char_newline then EmptyString :: split_lines s'
      else
        match split_lines s' with
        | l :: ls => String c l :: ls
        | [] => [String c EmptyString]
        end
  end.

(** The inner function [_parse_env_line] of [parse_env]. *)
Definition _parse_env_line (acc : dict) (line : string) : dict :=
  let line := lstrip line in
  if negb (startswith_char "#" line) then
    match split_once "=" line with
    | Some (key, v) => dict_set acc key (VStr v)
    | None => acc
    end
  else acc.

(** [parse_env(filehandle)], on the text that [filehandle.read()] gives. *)
Definition parse_env (text : string) : value :=
  VDict (fold_left _parse_env_line (split_lines text) []).

(** [output_env(data)]: one line [key=value] for each item, the value
    formatted as [str] does. *)
Definition output_env (data : value) : result string :=
  match data with
  | VDict items =>
      Ok (fold_left
            (fun out kv =>
               out ++ fst kv ++ "=" ++ py_str (snd kv) ++ String char_newline "")
            items "")
  | _ => Raise AttributeError
  end.

(** ** The format of a source *)

(** A character of the group [[^.?/]]. *)
Definition ext_char (c : ascii) : bool :=
  negb (Ascii.eqb c "." || Ascii.eqb c "?" || Ascii.eqb c "/").

(** Where [(?:\?|$)] matches: before a question mark, at the end of the
    string, or before a newline that ends the string. *)
Definition ext_end (s : string) : bool :=
  match s with
  | EmptyString => true
  | String c s' =>
      Ascii.eqb c "?" || (Ascii.eqb c char_newline && String.eqb s' "")
  end.

(** [([^.?/]+)(?:\?|$)] at the head of [s]: the group takes as many
    characters as it can and gives them back one by one. *)
Fixpoint ext_group (s : string) : option string :=
  match s with
  | EmptyString => None
  | String c s' =>
      if ext_char c then
        match ext_group s' with
        | Some g => Some (String c g)
        | None => if ext_end s' then Some (String c EmptyString) else None
        end
      else None
  end.

(** [REGEX_EXTENSION.match(s)]: the captured group.  [.*?] passes over as
    few characters as it can, none of them a newline. *)
Fixpoint REGEX_EXTENSION_match (s : string) : option string :=
  match s with
  | EmptyString => None
  | String c s' =>
      match (if Ascii.eqb c "." then ext_group s' else None) with
      | Some g => Some g
      | None =>
          if Ascii.eqb c char_newline then None else REGEX_EXTENSION_match s'
      end
  end.

(** [s.endswith(c)] for a single character. *)
Fixpoint endswith_char (c : ascii) (s : string) : bool :=
  match s with
  | EmptyString => false
  | String c' EmptyString => Ascii.eqb c' c
  | String _ s' => endswith_char c s'
  end.

(** The keys of [INPUT_FORMATS]. *)
Definition INPUT_FORMATS : list string := ["py"; "json"; "yaml"; "env"].

(** How [_load_data_from_source] reads a string source: as an inline JSON
    document, in the format of a known extension, or not at all. *)
Inductive source_format : Type :=
| InlineJson
| FormatOf (ext : string)
| Unsupported (ext : string).

(** The part of [_load_data_from_source] that chooses the format of a
    string source (the test for an inline document and the lines that set
    [ext]).  [is_url] is the inner function of that name, which rests on
    [urllib.parse.urlparse]. *)
Definition format_of_source (is_url : string -> bool) (source : string)
  : source_format :=
  if startswith_char "{" source && endswith_char "}" source then InlineJson
  else
    let ext := if is_url source then "json" else "unknown" in
    let ext :=
      match REGEX_EXTENSION_match source with
      | Some g => g
      | None => ext
      end in
    if existsb (String.eqb ext) INPUT_FORMATS then FormatOf ext
    else Unsupported ext.

(** ** Notions used to state the properties *)

Definition is_mapping (v : value) : bool :=
  match v with VDict _ => true | _ => false end.

(** [isinstance(v, Iterable) and not isinstance(v, str)], mappings apart. *)
Definition is_sequence (v : value) : bool :=
  match v with VList _ | VSet _ => true | _ => false end.

Definition is_scalar (v : value) : bool :=
  match v with VNone | VBool _ | VInt _ | VStr _ => true | _ => false end.

Definition is_string (v : value) : bool :=
  match v with VStr _ => true | _ => false end.

Definition is_none (v : value) : bool :=
  match v with VNone => true | _ => false end.

Fixpoint mem_string (k : string) (l : list string) : bool :=
  match l with
  | [] => false
  | k' :: l' => String.eqb k' k || mem_string k l'
  end.

Fixpoint unique_strings (l : list string) : bool :=
  match l with
  | [] => true
  | k :: l' => negb (mem_string k l') && unique_strings l'
  end.

(** The keys of a mapping are pairwise different. *)
Definition unique_keys (d : dict) : bool := unique_strings (dict_keys d).

(** Every mapping met on the way down through mapping values has pairwise
    different keys. *)
Fixpoint well_formed (v : value) : bool :=
  match v with
  | VDict items =>
      unique_keys items
      && (fix all (items : list (string * value)) : bool :=
            match items with
            | [] => true
            | (_, x) :: rest => well_formed x && all rest
            end) items
  | _ => true
  end.

(** Some mapping inside [v], at any depth and also inside sequences, has the
    key [mk]. *)
Fixpoint holds_key (mk : string) (v : value) : bool :=
  match v with
  | VDict items =>
      dict_mem items mk
      || (fix any (items : list (string * value)) : bool :=
            match items with
            | [] => false
            | (_, x) :: rest => holds_key mk x || any rest
            end) items
  | VList l | VSet l =>
      (fix any (l : list value) : bool :=
         match l with
         | [] => false
         | x :: rest => holds_key mk x || any rest
         end) l
  | VNone | VBool _ | VInt _ | VStr _ => false
  end.

(** [r] has no key [mk], and neither has any mapping of [r] that is reached
    through keys at which [u] holds a mapping, all the way down. *)
Fixpoint stripped_along (mk : string) (u : value) (r : value) : bool :=
  match u, r with
  | VDict uitems, VDict ritems =>
      negb (dict_mem ritems mk)
      && (fix all (uitems : list (string * value)) : bool :=
            match uitems with
            | [] => true
            | (k, v) :: rest =>
                (if String.eqb k mk then true
                 else
                   match v with
                   | VDict _ =>
                       match dict_get ritems k with
                       | Some r' => stripped_along mk v r'
                       | None => false
                       end
                   | _ => true
                   end)
                && all rest
            end) uitems
  | _, _ => false
  end.

(** The metadata entry of a mapping, when it can be unpacked. *)
Definition metadata_of (mk : string) (d : dict) : option dict :=
  match dict_get d mk with
  | None => Some []
  | Some (VDict m) => Some m
  | Some _ => None
  end.

(** A sequence that comes out of a merge into an empty mapping as it went
    in: a list under ['concat'] or ['replace'], a set under ['replace']. *)
Definition kept_by_strategy (meta : dict) (k : string) (v : value) : bool :=
  match v with
  | VList _ =>
      match dict_get meta k with
      | None => true
      | Some (VStr s) => String.eqb s "concat" || String.eqb s "replace"
      | Some _ => false
      end
  | VSet _ =>
      match dict_get meta k with
      | Some (VStr s) => String.eqb s "replace"
      | _ => false
      end
  | _ => true
  end.

(** An update mapping whose metadata, at every level reached through mapping
    values, is a mapping that selects ['concat'] or ['replace'] for the
    sequences of that level; the keys of each mapping and of its metadata
    are pairwise different. *)
Fixpoint plain_update (mk : string) (u : value) : bool :=
  match u with
  | VDict items =>
      match metadata_of mk items with
      | None => false
      | Some meta =>
          unique_keys items && unique_keys meta
          && (fix all (items : list (string * value)) : bool :=
                match items with
                | [] => true
                | (k, v) :: rest =>
                    (String.eqb k mk
                     || (kept_by_strategy meta k v && plain_update mk v))
                    && all rest
                end) items
      end
  | _ => true
  end.


Definition all_hashable (l : list value) : bool :=
  forallb (fun x => match py_hash x with Some _ => true | None => false end) l.

(** The strategy that the merged metadata [{**dm, **um}] names for [k]: the
    entry of the update, else the entry of the base, else ['concat']. *)
Definition strategy_for (dm um : dict) (k : string) : value :=
  match dict_get um k with
  | Some s => s
  | None =>
      match dict_get dm k with
      | Some s => s
      | None => VStr "concat"
      end
  end.

(** *** Template strings *)

(** A string cut into literal text and [${name}] tokens. *)
Inductive piece : Type :=
| Text (s : string)
| Tok (name : string).

Definition template : Type := list piece.

(** The string a template stands for. *)
Fixpoint render (t : template) : string :=
  match t with
  | [] => EmptyString
  | Text s :: t' => s ++ render t'
  | Tok n :: t' => TEMPLATE_REPLACEMENT n ++ render t'
  end.

(** The template with each token replaced by what [f] gives for its name. *)
Fixpoint render_with (f : string -> string) (t : template) : string :=
  match t with
  | [] => EmptyString
  | Text s :: t' => s ++ render_with f t'
  | Tok n :: t' => f n ++ render_with f t'
  end.

Fixpoint token_names (t : template) : list string :=
  match t with
  | [] => []
  | Text _ :: t' => token_names t'
  | Tok n :: t' => n :: token_names t'
  end.

Definition dollar_free (s : string) : bool :=
  negb (str_contains_char char_dollar s).

(** A name that [REGEX_TEMPLATE_VAR] captures whole and that cannot be taken
    for part of another token: not empty, without dollar sign, closing brace
    or newline. *)
Definition plain_name (n : string) : bool :=
  negb (String.eqb n "")
  && dollar_free n
  && negb (str_contains_char char_rbrace n)
  && negb (str_contains_char char_newline n).

(** The string begins with a dollar sign and an opening brace. *)
Definition token_start (s : string) : bool :=
  match s with
  | String c1 (String c2 _) =>
      Ascii.eqb c1 char_dollar && Ascii.eqb c2 char_lbrace
  | _ => false
  end.

(** A text that cannot begin or complete a token: each of its dollar signs
    is followed, within the text, by something else than an opening
    brace. *)
Fixpoint safe_text (s : string) : bool :=
  match s with
  | EmptyString => true
  | String c s' =>
      (negb (Ascii.eqb c char_dollar)
       || match s' with
          | EmptyString => false
          | String c2 _ => negb (Ascii.eqb c2 char_lbrace)
          end)
      && safe_text s'
  end.

Fixpoint plain_template (t : template) : bool :=
  match t with
  | [] => true
  | Text s :: t' => safe_text s && plain_template t'
  | Tok n :: t' => plain_name n && plain_template t'
  end.

(** The template with the tokens whose name satisfies [p] replaced by what
    [f] gives, the other tokens left as they are. *)
Fixpoint render_some (f : string -> string) (p : string -> bool) (t : template)
  : string :=
  match t with
  | [] => EmptyString
  | Text s :: t' => s ++ render_some f p t'
  | Tok n :: t' =>
      (if p n then f n else TEMPLATE_REPLACEMENT n) ++ render_some f p t'
  end.

(** A text that the substitution of the tokens named in [names] leaves
    alone: it is cut into safe text and plain tokens of other names. *)
Definition inert_for (names : list string) (t : template) : bool :=
  plain_template t
  && forallb (fun n => negb (mem_string n names)) (token_names t).









(** Substitution in one pass over the original string, as the specification
    words it: each match of the pattern is replaced by the string of the
    looked-up value, and the search goes on after the match in the original.
    The text put in is not looked at again. *)
Fixpoint single_pass_from (lookup : string -> value) (skip : nat) (s : string)
  : string :=
  match s with
  | EmptyString => EmptyString
  | String c s' =>
      match skip with
      | S n => single_pass_from lookup n s'
      | O =>
          match REGEX_TEMPLATE_VAR_match s with
          | Some t =>
              py_str (lookup t) ++ single_pass_from lookup (String.length t + 2) s'
          | None => String c (single_pass_from lookup 0 s')
          end
      end
  end.

Definition single_pass (lookup : string -> value) (s : string) : string :=
  single_pass_from lookup 0 s.

(** *** The overlay, as the specification words it *)

(** The fragments in the order of the traversal: folder by folder, and
    within a folder name by name. *)
Definition fragment_order (names folders : list string) : list (string * string) :=
  flat_map (fun folder => map (fun name => (folder, name)) (DEFAULT_FILENAME :: names))
           ("" :: folders).

(** What a fragment file contributes: its content, or an empty mapping when
    the file is absent. *)
Definition fragment (fs : file_tree) (p : string * string) : result value :=
  match fs (fst p) (snd p) with
  | Some loaded => loaded
  | None => Ok (VDict [])
  end.

(** The fragments merged one after the other into an empty mapping. *)
Definition overlay_fold (fs : file_tree) (order : list (string * string))
  : result value :=
  fold_left
    (fun acc p =>
       data <- acc ;;
       u <- fragment fs p ;;
       update_dict_subkeys no_options data u false)
    order (Ok (VDict [])).



(** What a call returns, the state left aside. *)
Definition returned {A B : Type} (m : result (A * B)) : result A :=
  match m with
  | Ok (a, _) => Ok a
  | Raise e => Raise e
  end.


(** A folder with [_default.json = {"x": 1}] and [prod.json = {"x": 2}]. *)
Definition example_tree : file_tree :=
  fun folder name =>
    if String.eqb folder "" && String.eqb name "_default"
    then Some (Ok (VDict [("x", VInt 1)]))
    else if String.eqb folder "" && String.eqb name "prod"
    then Some (Ok (VDict [("x", VInt 2)]))
    else None.

(** A set is bound to a key of [v], or of a mapping bound to a key of [v],
    and so on downwards. *)
Fixpoint set_valued (v : value) : bool :=
  match v with
  | VDict items =>
      (fix any (items : list (string * value)) : bool :=
         match items with
         | [] => false
         | (_, x) :: rest =>
             match x with
             | VSet _ => true
             | _ => set_valued x
             end
             || any rest
         end) items
  | _ => false
  end.

(** The pattern of the tokens matches nowhere in the string. *)
Definition no_token (s : string) : bool :=
  match REGEX_TEMPLATE_VAR_findall s with
  | [] => true
  | _ :: _ => false
  end.

(** No string that the resolver looks at, in [v] and in the mappings nested
    in it through mapping values, holds a token, and no value is a set. *)
Fixpoint token_free (v : value) : bool :=
  match v with
  | VDict items =>
      (fix all (items : list (string * value)) : bool :=
         match items with
         | [] => true
         | (_, x) :: rest =>
             match x with
             | VStr s => no_token s
             | VList l =>
                 forallb
                   (fun e => match e with VStr s => no_token s | _ => true end) l
             | VSet _ => false
             | VDict _ => token_free x
             | VNone | VBool _ | VInt _ => true
             end
             && all rest
         end) items
  | _ => true
  end.

(** A key that [parse_env] reads back as it is: no equals sign, no newline,
    and a first character, if any, that is neither white space nor [#]. *)
Definition env_key (k : string) : bool :=
  negb (str_contains_char "=" k)
  && negb (str_contains_char char_newline k)
  && match k with
     | EmptyString => true
     | String c _ => negb (is_space c) && negb (Ascii.eqb c "#")
     end.

(** An item that [output_env] writes on one line and [parse_env] reads
    back. *)
Definition env_item (kv : string * value) : bool :=
  env_key (fst kv) && negb (str_contains_char char_newline (py_str (snd kv))).

(** The lines [key=value] of the items, one after the other. *)
Fixpoint env_text (items : list (string * value)) : string :=
  match items with
  | [] => EmptyString
  | (k, v) :: rest =>
      (k ++ "=" ++ py_str v) ++ String char_newline (env_text rest)
  end.

(** The items with each value turned into its string. *)
Definition env_strings (items : list (string * value)) : dict :=
  map (fun kv => (fst kv, VStr (py_str (snd kv)))) items.

(** A line that [parse_env] passes over: a comment, or a line without
    equals sign. *)
Definition env_skipped (line : string) : bool :=
  startswith_char "#" (lstrip line) || negb (str_contains_char "=" line).

(** An extension that [REGEX_EXTENSION] captures whole: not empty, without
    dot, question mark or slash. *)
Fixpoint ext_chars (e : string) : bool :=
  match e with
  | EmptyString => true
  | String c e' => ext_char c && ext_chars e'
  end.

Definition plain_ext (e : string) : bool :=
  negb (String.eqb e "") && ext_chars e.

(** What may follow the extension: nothing, or a query that starts with a
    question mark. *)
Definition query_part (q : string) : bool :=
  match q with
  | EmptyString => true
  | String c _ => Ascii.eqb c "?"
  end.

(** The source is not taken for an inline JSON document. *)
Definition not_inline (source : string) : bool :=
  negb (startswith_char "{" source && endswith_char "}" source).

(** Every entry of the fragment cache is an empty mapping. *)
Definition all_empty (c : data_cache) : bool :=
  forallb (fun e => match snd e with VDict [] => true | _ => false end) c.

(** A series of calls of [get] that all return, each with the folder tree
    of its moment: the state after the last one. *)
Fixpoint run_gets (st : overlay_state)
    (calls : list (file_tree * (str_or_tuple * str_or_tuple)))
  : result overlay_state :=
  match calls with
  | [] => Ok st
  | (fs, (names, folders)) :: rest =>
      '(_, st') <- VariableOverlay_get fs st names folders ;;
      run_gets st' rest
  end.

(** *** The loops, turn by turn *)

(** One turn of the loop of [update_dict_subkeys], for the item [(k, v)] of
    the update: the mapping [d] after it. *)
Definition merge_item (o : options) (none_values_are_transparent : bool)
    (meta : dict) (k : string) (v : value) (d : dict) : result dict :=
  if String.eqb k (metadata_key o) then Ok d
  else
    match v with
    | VDict _ =>
        r <- update_dict_subkeys o (dict_get_default d k (VDict [])) v false ;;
        Ok (dict_set d k r)
    | VList _ | VSet _ =>
        f <- META_funcs_combine (dict_get_default meta k (VStr "concat")) ;;
        r <- f (dict_get_default d k (VList [])) v ;;
        Ok (dict_set d k r)
    | VNone | VBool _ | VInt _ | VStr _ =>
        if none_values_are_transparent && dict_mem d k && is_none v
        then Ok d
        else Ok (dict_set d k v)
    end.

Fixpoint merge_items (o : options) (none_values_are_transparent : bool)
    (meta : dict) (items : list (string * value)) (d : dict) : result value :=
  match items with
  | [] => Ok (VDict d)
  | (k, v) :: rest =>
      d' <- merge_item o none_values_are_transparent meta k v d ;;
      merge_items o none_values_are_transparent meta rest d'
  end.

(** One turn of the loop of [replace_template_variables]. *)
Definition resolve_item (parents : list frame) (flat : dict)
    (k : string) (v : value) (cur : dict) : result dict :=
  match v with
  | VStr _ =>
      Ok (dict_set cur k (_replace_template (data_chain_get cur parents flat) v))
  | VDict _ =>
      r <- replace_template_variables v ((cur, k) :: parents) flat ;;
      Ok (dict_set cur k r)
  | VList l =>
      Ok (dict_set cur k
            (VList (map (_replace_template (data_chain_get cur parents flat)) l)))
  | VSet _ => Raise TypeError
  | VNone | VBool _ | VInt _ => Ok cur
  end.

Fixpoint resolve_items (parents : list frame) (flat : dict)
    (items : list (string * value)) (cur : dict) : result value :=
  match items with
  | [] => Ok (VDict cur)
  | (k, v) :: rest =>
      cur' <- resolve_item parents flat k v cur ;;
      resolve_items parents flat rest cur'
  end.

(** * Properties *)

(** ** Mappings *)

Lemma dict_get_set_same (d : dict) (k : string) (v : value) :
  dict_get (dict_set d k v) k = Some v.
Proof.
  induction d as [|[k' v'] d IH]; simpl.
  - now rewrite String.eqb_refl.
  - destruct (String.eqb k' k) eqn:E; simpl.
    + now rewrite String.eqb_refl.
    + now rewrite E.
Qed.

Lemma dict_get_set_other (d : dict) (k k' : string) (v : value) :
  k' <> k -> dict_get (dict_set d k' v) k = dict_get d k.
Proof.
  intros Hne.
  induction d as [|[k0 v0] d IH]; simpl.
  - destruct (String.eqb_spec k' k); congruence.
  - destruct (String.eqb_spec k0 k') as [->|Hk0]; simpl.
    + destruct (String.eqb_spec k' k); congruence.
    + destruct (String.eqb_spec k0 k); auto.
Qed.

Lemma dict_get_remove_same (d : dict) (k : string) :
  dict_get (dict_remove d k) k = None.
Proof.
  induction d as [|[k0 v0] d IH]; simpl; auto.
  destruct (String.eqb k0 k) eqn:E; simpl; auto.
  now rewrite E.
Qed.

Lemma dict_get_remove_other (d : dict) (k mk : string) :
  k <> mk -> dict_get (dict_remove d mk) k = dict_get d k.
Proof.
  intros Hne.
  induction d as [|[k0 v0] d IH]; simpl; auto.
  destruct (String.eqb_spec k0 mk) as [->|Hk0]; simpl.
  - destruct (String.eqb_spec mk k); congruence.
  - now rewrite IH.
Qed.

Lemma dict_mem_set_other (d : dict) (k k' : string) (v : value) :
  k' <> k -> dict_mem (dict_set d k' v) k = dict_mem d k.
Proof.
  intros H. unfold dict_mem. now rewrite dict_get_set_other.
Qed.

Lemma dict_mem_set_same (d : dict) (k : string) (v : value) :
  dict_mem (dict_set d k v) k = true.
Proof.
  unfold dict_mem. now rewrite dict_get_set_same.
Qed.

Lemma mem_string_In (k : string) (l : list string) :
  mem_string k l = true <-> In k l.
Proof.
  induction l as [|k' l IH]; simpl.
  - split; [discriminate | tauto].
  - rewrite orb_true_iff, IH.
    destruct (String.eqb_spec k' k); split; intros [H|H]; auto; congruence.
Qed.

Lemma dict_get_not_key (d : dict) (k : string) :
  mem_string k (dict_keys d) = false -> dict_get d k = None.
Proof.
  induction d as [|[k0 v0] d IH]; simpl; auto.
  destruct (String.eqb k0 k); simpl; auto. discriminate.
Qed.

Lemma dict_get_none_not_key (d : dict) (k : string) :
  dict_get d k = None -> mem_string k (dict_keys d) = false.
Proof.
  induction d as [|[k0 v0] d IH]; simpl; auto.
  destruct (String.eqb k0 k); simpl; [discriminate | auto].
Qed.


Create HintDb dict.
#[local] Hint Resolve dict_get_set_same dict_get_set_other
  dict_get_remove_same dict_get_remove_other : dict.

(** ** The loops *)

Lemma bind_ok {A B} (m : result A) (k : A -> result B) (b : B) :
  bind m k = Ok b -> exists a, m = Ok a /\ k a = Ok b.
Proof.
  destruct m as [a|e]; simpl; [eauto | discriminate].
Qed.

Ltac bind_inv H :=
  let a := fresh "a" in
  let Ha := fresh "Ha" in
  apply bind_ok in H; destruct H as [a [Ha H]].

Lemma update_dict_subkeys_unfold (o : options) (d u : value) (flag : bool) :
  update_dict_subkeys o d u flag =
  ('(dmeta, d0) <- py_pop d (metadata_key o) (VDict []) ;;
   dm <- py_unpack_mapping dmeta ;;
   match u with
   | VDict uitems =>
       um <- py_unpack_mapping
               (dict_get_default uitems (metadata_key o) (VDict [])) ;;
       merge_items o flag (dict_update dm um) uitems d0
   | VList _ | VSet _ => Raise TypeError
   | VNone | VBool _ | VInt _ | VStr _ => Raise AttributeError
   end).
Proof.
  destruct u; try reflexivity.
  simpl.
  destruct (py_pop d (metadata_key o) (VDict [])) as [[dmeta d0]|]; simpl; auto.
  destruct (py_unpack_mapping dmeta) as [dm|]; simpl; auto.
  destruct (py_unpack_mapping _) as [um|]; simpl; auto.
  generalize (dict_update dm um) as meta. intros meta.
  revert d0.
  induction items as [|[k v] rest IH]; intros d0; simpl; auto.
  unfold merge_item.
  destruct (String.eqb k (metadata_key o)); simpl; auto.
  destruct v; simpl; auto;
    try (destruct (flag && dict_mem d0 k); simpl; auto);
    repeat match goal with
           | |- context [bind ?m _] => destruct m; simpl; auto
           end.
Qed.

Lemma replace_template_variables_unfold (data : value) (parents : list frame)
    (flat : dict) :
  replace_template_variables data parents flat =
  match data with
  | VDict items => resolve_items parents flat items items
  | _ => Raise AttributeError
  end.
Proof.
  destruct data; try reflexivity.
  simpl.
  generalize items at 2 4 as cur.
  induction items as [|[k v] rest IH]; intros cur; simpl; auto.
  destruct v; simpl; auto.
  match goal with
  | |- context [bind ?m _] => destruct m; simpl; auto
  end.
Qed.

Arguments update_dict_subkeys : simpl never.
Arguments replace_template_variables : simpl never.

Lemma merge_item_other (o : options) (flag : bool) (meta : dict)
    (k0 : string) (v0 : value) (d d1 : dict) (k : string) :
  merge_item o flag meta k0 v0 d = Ok d1 ->
  k0 <> k ->
  dict_get d1 k = dict_get d k.
Proof.
  unfold merge_item. intros H Hne.
  destruct (String.eqb k0 (metadata_key o)); [now inversion H|].
  destruct v0;
    try (destruct (flag && dict_mem d k0 && _);
         inversion H; subst; auto with dict);
    repeat bind_inv H; inversion H; subst; auto with dict.
Qed.

Lemma merge_items_untouched (o : options) (flag : bool) (meta : dict)
    (items : list (string * value)) (k : string) :
  mem_string k (dict_keys items) = false ->
  forall d r,
    merge_items o flag meta items d = Ok r ->
    exists rd, r = VDict rd /\ dict_get rd k = dict_get d k.
Proof.
  induction items as [|[k0 v0] rest IH]; simpl; intros Hk d r H.
  - inversion H; subst. eauto.
  - apply orb_false_iff in Hk. destruct Hk as [Hk0 Hrest].
    bind_inv H.
    destruct (IH Hrest _ _ H) as [rd [-> Hrd]].
    exists rd. split; auto.
    rewrite Hrd. eapply merge_item_other; eauto.
    now apply String.eqb_neq.
Qed.

(** The turn of the loop that handles the key [k] sees the value that the
    base had at [k] when the loop began, and what it leaves at [k] is still
    there at the end. *)
Lemma merge_items_at (o : options) (flag : bool) (meta : dict)
    (items : list (string * value)) (k : string) (v : value) :
  unique_keys items = true ->
  dict_get items k = Some v ->
  forall d r,
    merge_items o flag meta items d = Ok r ->
    exists d1 d2 rd,
      dict_get d1 k = dict_get d k
      /\ merge_item o flag meta k v d1 = Ok d2
      /\ r = VDict rd
      /\ dict_get rd k = dict_get d2 k.
Proof.
  unfold unique_keys.
  induction items as [|[k0 v0] rest IH]; simpl; intros Hu Hget d r H;
    [discriminate|].
  apply andb_true_iff in Hu. destruct Hu as [Hfresh Hu].
  apply negb_true_iff in Hfresh.
  bind_inv H.
  destruct (String.eqb_spec k0 k) as [->|Hne].
  - inversion Hget; subst v0.
    destruct (merge_items_untouched _ _ _ _ _ Hfresh _ _ H) as [rd [-> Hrd]].
    exists d, a, rd. auto.
  - destruct (IH Hu Hget _ _ H) as [d1 [d2 [rd [H1 [H2 [-> H3]]]]]].
    exists d1, d2, rd. repeat split; auto.
    rewrite H1. eapply merge_item_other; eauto.
Qed.

(** What a successful top-level call was made of. *)
Lemma update_dict_subkeys_ok (o : options) (d u : dict) (flag : bool) (r : value) :
  update_dict_subkeys o (VDict d) (VDict u) flag = Ok r ->
  exists dm um,
    py_unpack_mapping (dict_get_default d (metadata_key o) (VDict [])) = Ok dm
    /\ py_unpack_mapping (dict_get_default u (metadata_key o) (VDict [])) = Ok um
    /\ merge_items o flag (dict_update dm um) u (dict_remove d (metadata_key o)) = Ok r.
Proof.
  rewrite update_dict_subkeys_unfold. simpl. intros H.
  bind_inv H. bind_inv H. eauto.
Qed.

(** ** Scalars *)

(** C7.  In a call of [update_dict_subkeys] that returns, a key [k] of the
    update whose value is a scalar ends as follows: when
    [none_values_are_transparent] is set for that call, the base already has
    [k] and the update value is [None], the base keeps its value; in every
    other case the result binds [k] to the update value, whether the base
    had the key or not.  The flag is the one of the call: the recursive
    calls on nested mappings are made with [**options] only and run with
    the flag off.  With base [{'a': 1}] and update [{'a': None}] the result
    is [{'a': None}] without the flag and [{'a': 1}] with it. *)
Theorem scalar_update_rule :
  (forall (o : options) (flag : bool) (d u : dict) (r : value)
          (k : string) (v : value),
      unique_keys u = true ->
      update_dict_subkeys o (VDict d) (VDict u) flag = Ok r ->
      dict_get u k = Some v ->
      is_scalar v = true ->
      k <> metadata_key o ->
      exists rd,
        r = VDict rd
        /\ dict_get rd k =
           if flag && dict_mem d k && is_none v then dict_get d k else Some v)
  /\ update_dict_subkeys no_options (VDict [("a", VInt 1)])
       (VDict [("a", VNone)]) false = Ok (VDict [("a", VNone)])
  /\ update_dict_subkeys no_options (VDict [("a", VInt 1)])
       (VDict [("a", VNone)]) true = Ok (VDict [("a", VInt 1)]).
Proof.
  split; [|split; reflexivity].
  intros o flag d u r k v Hu H Hget Hsc Hk.
  apply update_dict_subkeys_ok in H. destruct H as [dm [um [_ [_ H]]]].
  destruct (merge_items_at _ _ _ _ _ _ Hu Hget _ _ H)
    as [d1 [d2 [rd [H1 [H2 [-> H3]]]]]].
  exists rd. split; auto.
  rewrite dict_get_remove_other in H1 by auto.
  unfold merge_item in H2.
  destruct (String.eqb_spec k (metadata_key o)); [contradiction|].
  assert (Hmem : dict_mem d1 k = dict_mem d k) by (unfold dict_mem; now rewrite H1).
  rewrite Hmem in H2.
  destruct v; try discriminate;
    destruct (flag && dict_mem d k && _); inversion H2; subst;
    rewrite H3; auto using dict_get_set_same.
Qed.

Lemma scalar_update_rule_witness :
  exists rd,
    update_dict_subkeys no_options
      (VDict [("a", VInt 1); ("b", VInt 2)])
      (VDict [("a", VNone); ("b", VStr "x"); ("c", VNone)]) true = Ok (VDict rd)
    /\ dict_get rd "a" = Some (VInt 1)
    /\ dict_get rd "b" = Some (VStr "x")
    /\ dict_get rd "c" = Some VNone.
Proof.
  pose (d := [("a", VInt 1); ("b", VInt 2)]).
  pose (u := [("a", VNone); ("b", VStr "x"); ("c", VNone)]).
  pose proof (proj1 scalar_update_rule no_options true d u
                (VDict [("a", VInt 1); ("b", VStr "x"); ("c", VNone)])) as H.
  destruct (H "a" VNone eq_refl eq_refl eq_refl eq_refl ltac:(discriminate))
    as [rd [E Ha]].
  exists rd.
  split; [now rewrite <- E|].
  inversion E; subst rd. repeat split; reflexivity.
Defined.

(** The flag does not reach a nested mapping: there a [None] of the update
    still overwrites. *)
Lemma transparency_is_not_handed_down :
  update_dict_subkeys no_options
    (VDict [("c", VDict [("a", VInt 1)])])
    (VDict [("c", VDict [("a", VNone)])]) true
  = Ok (VDict [("c", VDict [("a", VNone)])]).
Proof. reflexivity. Qed.

(** ** Values of different kinds at one key *)

(** C1.  The merge and the template resolver are not total on well-formed
    mappings.  A scalar in the base against a list in the update ends in a
    [TypeError] (the default ['concat'] adds the two); a scalar in the base
    against a mapping in the update ends in an [AttributeError] (the
    recursive call pops from the scalar); and the set that an ['and'] merge
    leaves in its result makes the resolver, and with it the public [merge],
    end in a [TypeError] (a set has no slice assignment). *)
Theorem merge_and_resolve_raise :
  update_dict_subkeys no_options
    (VDict [("a", VInt 1)]) (VDict [("a", VList [VInt 2])]) false
  = Raise TypeError
  /\ update_dict_subkeys no_options
       (VDict [("a", VInt 1)]) (VDict [("a", VDict [("b", VInt 2)])]) false
     = Raise AttributeError
  /\ update_dict_subkeys no_options
       (VDict [("a", VList [VInt 1; VInt 2; VInt 3])])
       (VDict [("a", VList [VInt 3; VInt 4; VInt 5]);
               (DEFAULT_METADATA_KEY, VDict [("a", VStr "and")])]) false
     = Ok (VDict [("a", VSet [VInt 3])])
  /\ replace_template_variables (VDict [("a", VSet [VInt 3])]) [] []
     = Raise TypeError
  /\ merge no_external
       [VDict [("a", VList [VInt 1; VInt 2; VInt 3])];
        VDict [("a", VList [VInt 3; VInt 4; VInt 5]);
               (DEFAULT_METADATA_KEY, VDict [("a", VStr "and")])]]
       false no_options
     = Raise TypeError.
Proof. repeat split; reflexivity. Qed.

(** C5.  When the update holds a mapping at [k] and the base holds something
    else than a mapping there, the call does not return: the recursive call
    is made on the base value itself, [d.get(k, {})], and pops from it.  The
    empty mapping is used only when the base has no [k] at all. *)
Theorem mapping_over_other_value_raises :
  forall (o : options) (flag : bool) (d u : dict) (k : string) (x : value)
         (m : dict),
    unique_keys u = true ->
    dict_get u k = Some (VDict m) ->
    dict_get d k = Some x ->
    is_mapping x = false ->
    k <> metadata_key o ->
    is_ok (update_dict_subkeys o (VDict d) (VDict u) flag) = false.
Proof.
  intros o flag d u k x m Hu Hget Hd Hx Hk.
  destruct (update_dict_subkeys o (VDict d) (VDict u) flag) as [r|e] eqn:E;
    [|reflexivity].
  exfalso.
  apply update_dict_subkeys_ok in E. destruct E as [dm [um [_ [_ H]]]].
  destruct (merge_items_at _ _ _ _ _ _ Hu Hget _ _ H)
    as [d1 [d2 [rd [H1 [H2 _]]]]].
  rewrite dict_get_remove_other in H1 by auto.
  unfold merge_item in H2.
  destruct (String.eqb_spec k (metadata_key o)); [contradiction|].
  bind_inv H2.
  unfold dict_get_default in Ha. rewrite H1, Hd in Ha.
  rewrite update_dict_subkeys_unfold in Ha.
  destruct x; simpl in *; discriminate.
Qed.

Lemma mapping_over_other_value_raises_witness :
  update_dict_subkeys no_options
    (VDict [("a", VList [VInt 1])]) (VDict [("a", VDict [("b", VInt 2)])]) false
  = Raise TypeError
  /\ is_ok (update_dict_subkeys no_options
              (VDict [("a", VInt 1)]) (VDict [("a", VDict [("b", VInt 2)])]) false)
     = false.
Proof.
  split; [reflexivity|].
  apply (mapping_over_other_value_raises no_options false
           [("a", VInt 1)] [("a", VDict [("b", VInt 2)])] "a" (VInt 1)
           [("b", VInt 2)]);
    try reflexivity.
  discriminate.
Defined.

(** ** Sequences *)

Lemma dict_get_update (a b : dict) (k : string) :
  unique_keys b = true ->
  dict_get (dict_update a b) k =
  match dict_get b k with
  | Some v => Some v
  | None => dict_get a k
  end.
Proof.
  unfold dict_update, unique_keys. revert a.
  induction b as [|[k0 v0] b IH]; simpl; intros a Hu; auto.
  apply andb_true_iff in Hu. destruct Hu as [Hfresh Hu].
  apply negb_true_iff in Hfresh.
  rewrite IH by assumption.
  destruct (String.eqb_spec k0 k) as [->|Hne].
  - rewrite (dict_get_not_key _ _ Hfresh). apply dict_get_set_same.
  - now rewrite dict_get_set_other.
Qed.














Lemma metadata_of_unpack (mk : string) (d m : dict) :
  py_unpack_mapping (dict_get_default d mk (VDict [])) = Ok m <->
  metadata_of mk d = Some m.
Proof.
  unfold metadata_of, dict_get_default.
  destruct (dict_get d mk) as [[]|]; simpl; split; intros H;
    inversion H; subst; auto.
Qed.



(** ** The metadata key in the result *)

Lemma well_formed_dict (items : list (string * value)) :
  well_formed (VDict items) =
  unique_keys items && forallb (fun kv => well_formed (snd kv)) items.
Proof.
  simpl. f_equal.
  induction items as [|[k v] rest IH]; simpl; auto.
  now rewrite IH.
Qed.

Lemma stripped_along_dict (mk : string) (uitems ritems : list (string * value)) :
  stripped_along mk (VDict uitems) (VDict ritems) =
  negb (dict_mem ritems mk)
  && forallb
       (fun kv =>
          if String.eqb (fst kv) mk then true
          else
            match snd kv with
            | VDict _ =>
                match dict_get ritems (fst kv) with
                | Some r' => stripped_along mk (snd kv) r'
                | None => false
                end
            | _ => true
            end) uitems.
Proof.
  simpl. f_equal.
  induction uitems as [|[k v] rest IH]; simpl; auto.
  now rewrite IH.
Qed.

Lemma unique_keys_get (items : list (string * value)) (k : string) (v : value) :
  unique_keys items = true -> In (k, v) items -> dict_get items k = Some v.
Proof.
  unfold unique_keys.
  induction items as [|[k0 v0] rest IH]; simpl; intros Hu Hin; [tauto|].
  apply andb_true_iff in Hu. destruct Hu as [Hfresh Hu].
  apply negb_true_iff in Hfresh.
  destruct Hin as [E|Hin].
  - inversion E; subst. now rewrite String.eqb_refl.
  - destruct (String.eqb_spec k0 k) as [->|Hne]; auto.
    exfalso.
    assert (Hk : mem_string k (dict_keys rest) = true).
    { apply mem_string_In. unfold dict_keys.
      change k with (fst (k, v)). now apply in_map. }
    congruence.
Qed.

Lemma merge_item_keeps_metadata_key (o : options) (flag : bool) (meta : dict)
    (k0 : string) (v0 : value) (d d1 : dict) :
  merge_item o flag meta k0 v0 d = Ok d1 ->
  dict_get d1 (metadata_key o) = dict_get d (metadata_key o).
Proof.
  intros H.
  destruct (String.eqb_spec k0 (metadata_key o)) as [E|Hne].
  - unfold merge_item in H. rewrite E, String.eqb_refl in H. now inversion H.
  - eapply merge_item_other; eauto.
Qed.

Lemma merge_items_keeps_metadata_key (o : options) (flag : bool) (meta : dict)
    (items : list (string * value)) :
  forall d r,
    merge_items o flag meta items d = Ok r ->
    exists rd, r = VDict rd
               /\ dict_get rd (metadata_key o) = dict_get d (metadata_key o).
Proof.
  induction items as [|[k0 v0] rest IH]; simpl; intros d r H.
  - inversion H; subst. eauto.
  - bind_inv H. destruct (IH _ _ H) as [rd [-> Hrd]].
    exists rd. split; auto. rewrite Hrd.
    eapply merge_item_keeps_metadata_key; eauto.
Qed.

(** C3, as the code has it.  After a call that returns, the result has no
    metadata key of its own, and neither has any mapping of the result that
    sits at a key where the update holds a mapping, and so on downwards.
    Nothing is said of the mappings inside sequences, nor of those parts of
    the base that the update has no mapping for: they stay as they were. *)
Theorem metadata_stripped_along_update :
  forall (o : options) (u d : value) (flag : bool) (r : value),
    well_formed u = true ->
    update_dict_subkeys o d u flag = Ok r ->
    stripped_along (metadata_key o) u r = true.
Proof.
  intros o u.
  induction u as [| | | |l IHl|items IH|l IHl] using value_nested_ind;
    intros d flag r Hwf Hupd;
    rewrite update_dict_subkeys_unfold in Hupd;
    bind_inv Hupd; destruct a as [dmeta d0]; bind_inv Hupd; try discriminate.
  bind_inv Hupd.
  assert (Hd0 : dict_get d0 (metadata_key o) = None).
  { destruct d; simpl in Ha; try discriminate.
    inversion Ha; subst. apply dict_get_remove_same. }
  rewrite well_formed_dict in Hwf.
  apply andb_true_iff in Hwf. destruct Hwf as [Hu Hall].
  destruct (merge_items_keeps_metadata_key _ _ _ _ _ _ Hupd) as [rd [-> Hmk]].
  rewrite stripped_along_dict.
  apply andb_true_iff. split.
  - unfold dict_mem. now rewrite Hmk, Hd0.
  - apply forallb_forall. intros [k v] Hin. simpl.
    destruct (String.eqb_spec k (metadata_key o)) as [|Hk]; auto.
    destruct v; auto.
    pose proof (unique_keys_get _ _ _ Hu Hin) as Hget.
    destruct (merge_items_at _ _ _ _ _ _ Hu Hget _ _ Hupd)
      as [d1 [d2 [rd' [H1 [H2 [Er H3]]]]]].
    inversion Er; subst rd'.
    unfold merge_item in H2.
    destruct (String.eqb_spec k (metadata_key o)); [contradiction|].
    bind_inv H2. inversion H2; subst d2.
    rewrite H3, dict_get_set_same.
    rewrite Forall_forall in IH.
    apply (IH _ Hin) with (d := dict_get_default d1 k (VDict [])) (flag := false);
      auto.
    rewrite forallb_forall in Hall. apply (Hall _ Hin).
Qed.

Lemma metadata_stripped_along_update_witness :
  stripped_along DEFAULT_METADATA_KEY
    (VDict [("c", VDict [("x", VList [VInt 2]);
                         (DEFAULT_METADATA_KEY, VDict [("x", VStr "replace")])])])
    (VDict [("c", VDict [("x", VList [VInt 2])])]) = true.
Proof.
  apply (metadata_stripped_along_update no_options
           (VDict [("c", VDict [("x", VList [VInt 2]);
                                (DEFAULT_METADATA_KEY, VDict [("x", VStr "replace")])])])
           (VDict [("c", VDict [("x", VList [VInt 1]);
                                (DEFAULT_METADATA_KEY, VDict [("x", VStr "keep")])])])
           false);
    reflexivity.
Defined.

(** C3 as stated fails: a mapping that is an element of a list goes into the
    result with its metadata key. *)
Lemma metadata_key_left_in_sequence :
  exists r,
    update_dict_subkeys no_options (VDict [])
      (VDict [("b", VList [VDict [(DEFAULT_METADATA_KEY, VDict [("x", VStr "and")]);
                                  ("x", VList [VInt 1])]])])
      false = Ok r
    /\ holds_key DEFAULT_METADATA_KEY r = true.
Proof.
  eexists. split; reflexivity.
Qed.

(** ** Merging with an empty mapping *)

Lemma dict_set_fresh (d : dict) (k : string) (v : value) :
  dict_get d k = None -> dict_set d k v = (d ++ [(k, v)])%list.
Proof.
  induction d as [|[k0 v0] d IH]; simpl; auto.
  destruct (String.eqb k0 k); [discriminate|].
  intros H. now rewrite IH.
Qed.

Lemma dict_get_app_fresh (d : dict) (k k' : string) (v : value) :
  k' <> k -> dict_get d k = None -> dict_get (d ++ [(k', v)])%list k = None.
Proof.
  intros Hne. induction d as [|[k0 v0] d IH]; simpl.
  - destruct (String.eqb_spec k' k); congruence.
  - destruct (String.eqb k0 k); [discriminate | auto].
Qed.

Lemma update_popped_dict (mk : string) (items : list (string * value)) :
  update_popped mk (VDict items) =
  VDict (flat_map
           (fun kv =>
              if String.eqb (fst kv) mk then []
              else [(fst kv, update_popped mk (snd kv))]) items).
Proof.
  simpl. f_equal.
  induction items as [|[k v] rest IH]; simpl; auto.
  rewrite IH. now destruct (String.eqb k mk).
Qed.

Lemma plain_update_dict (mk : string) (items : list (string * value)) :
  plain_update mk (VDict items) = true ->
  exists meta,
    metadata_of mk items = Some meta
    /\ unique_keys items = true
    /\ unique_keys meta = true
    /\ forall k v, In (k, v) items -> k <> mk ->
                   kept_by_strategy meta k v = true /\ plain_update mk v = true.
Proof.
  simpl. destruct (metadata_of mk items) as [meta|]; [|discriminate].
  intros H. apply andb_true_iff in H. destruct H as [H Hall].
  apply andb_true_iff in H. destruct H as [Hu Hm].
  exists meta. split; [reflexivity|]. split; [assumption|]. split; [assumption|].
  clear Hu. intros k v Hin Hk.
  induction items as [|[k0 v0] rest IH]; simpl in *; [tauto|].
  apply andb_true_iff in Hall. destruct Hall as [H0 Hall].
  destruct Hin as [E|Hin]; [|now apply IH].
  inversion E; subst.
  destruct (String.eqb_spec k mk); [contradiction|].
  simpl in H0. now apply andb_true_iff in H0.
Qed.

(** A sequence of the update that its strategy hands over unchanged when the
    base has nothing at the key. *)
Lemma kept_by_strategy_combine (um : dict) (k : string) (v : value) :
  unique_keys um = true ->
  is_sequence v = true ->
  kept_by_strategy um k v = true ->
  exists f,
    META_funcs_combine (dict_get_default (dict_update [] um) k (VStr "concat")) = Ok f
    /\ f (VList []) v = Ok v.
Proof.
  intros Hu Hseq Hk.
  unfold dict_get_default. rewrite dict_get_update by assumption.
  unfold kept_by_strategy in Hk.
  destruct v; try discriminate;
    destruct (dict_get um k) as [[| | |s| | |]|]; simpl; try discriminate.
  - apply orb_true_iff in Hk. destruct Hk as [E|E]; apply String.eqb_eq in E;
      subst s; simpl; eauto.
  - simpl. eauto.
  - apply String.eqb_eq in Hk. subst s. simpl. eauto.
Qed.

Lemma merge_items_into_fresh (o : options) (flag : bool) (meta : dict)
    (items : list (string * value)) :
  unique_keys items = true ->
  (forall k v, In (k, v) items -> k <> metadata_key o ->
     match v with
     | VDict _ =>
         update_dict_subkeys o (VDict []) v false
         = Ok (update_popped (metadata_key o) v)
     | VList _ | VSet _ =>
         exists f,
           META_funcs_combine (dict_get_default meta k (VStr "concat")) = Ok f
           /\ f (VList []) v = Ok v
     | _ => True
     end) ->
  forall d,
    (forall k v, In (k, v) items -> dict_get d k = None) ->
    merge_items o flag meta items d =
    Ok (VDict (d ++ flat_map
                      (fun kv =>
                         if String.eqb (fst kv) (metadata_key o) then []
                         else [(fst kv, update_popped (metadata_key o) (snd kv))])
                      items)%list).
Proof.
  unfold unique_keys.
  induction items as [|[k v] rest IH]; simpl; intros Hu Hitems d Hfresh.
  - now rewrite app_nil_r.
  - apply andb_true_iff in Hu. destruct Hu as [Hk Hu].
    apply negb_true_iff in Hk.
    assert (Hdk : dict_get d k = None) by (apply (Hfresh k v); auto).
    assert (Hrest : forall x, forall k' v',
               In (k', v') rest -> dict_get (d ++ [(k, x)])%list k' = None).
    { intros x k' v' Hin. apply dict_get_app_fresh; [|eapply Hfresh; eauto].
      intros ->. apply (in_map fst) in Hin. simpl in Hin.
      apply mem_string_In in Hin. unfold dict_keys in Hk. congruence. }
    assert (Hfresh' : forall k' v', In (k', v') rest -> dict_get d k' = None)
      by (intros k' v' Hin; apply (Hfresh k' v'); auto).
    pose proof (Hitems k v (or_introl eq_refl)) as Hv.
    assert (Hitems' := fun k' v' (Hin : In (k', v') rest) =>
                         Hitems k' v' (or_intror Hin)).
    specialize (IH Hu Hitems').
    unfold merge_item.
    destruct (String.eqb_spec k (metadata_key o)) as [E|Hne]; simpl.
    + apply IH; eauto.
    + specialize (Hv Hne).
      assert (Hd : forall dflt, dict_get_default d k dflt = dflt)
        by (intros; unfold dict_get_default; now rewrite Hdk).
      assert (Hm : dict_mem d k = false) by (unfold dict_mem; now rewrite Hdk).
      destruct v; simpl;
        rewrite ?Hm, ?andb_false_r, ?Hd; simpl;
        try (rewrite dict_set_fresh by assumption;
             rewrite IH by eauto;
             now rewrite <- app_assoc).
      * destruct Hv as [f [Hf Hfv]]. rewrite Hf. simpl. rewrite Hfv. simpl.
        rewrite dict_set_fresh by assumption.
        rewrite IH by eauto. now rewrite <- app_assoc.
      * rewrite Hv. simpl.
        rewrite dict_set_fresh by assumption.
        rewrite IH by eauto. now rewrite <- app_assoc.
      * destruct Hv as [f [Hf Hfv]]. rewrite Hf. simpl. rewrite Hfv. simpl.
        rewrite dict_set_fresh by assumption.
        rewrite IH by eauto. now rewrite <- app_assoc.
Qed.

Lemma update_popped_other (mk : string) (v : value) :
  is_mapping v = false -> update_popped mk v = v.
Proof. destruct v; simpl; auto; discriminate. Qed.

Lemma merge_into_empty (o : options) (u : value) :
  is_mapping u = true ->
  plain_update (metadata_key o) u = true ->
  forall flag,
    update_dict_subkeys o (VDict []) u flag
    = Ok (update_popped (metadata_key o) u).
Proof.
  induction u as [| | | |l IHl|items IH|l IHl] using value_nested_ind;
    try discriminate.
  intros _ Hplain flag.
  destruct (plain_update_dict _ _ Hplain) as [um [Hum [Hu [Humu Hall]]]].
  rewrite update_popped_dict, update_dict_subkeys_unfold.
  apply metadata_of_unpack in Hum.
  cbn [py_pop bind dict_get_default dict_get dict_remove py_unpack_mapping].
  rewrite Hum.
  cbn [bind].
  rewrite (merge_items_into_fresh o flag (dict_update [] um) items Hu); auto.
  intros k v Hin Hk.
  destruct (Hall k v Hin Hk) as [Hkept Hpl].
  rewrite Forall_forall in IH. specialize (IH _ Hin). simpl in IH.
  destruct v; auto.
  - apply kept_by_strategy_combine; auto.
  - apply kept_by_strategy_combine; auto.
Qed.

Lemma merge_of_empty (o : options) (d m : dict) (flag : bool) :
  metadata_of (metadata_key o) d = Some m ->
  update_dict_subkeys o (VDict d) (VDict []) flag
  = Ok (VDict (dict_remove d (metadata_key o))).
Proof.
  intros Hm. rewrite update_dict_subkeys_unfold. simpl.
  apply metadata_of_unpack in Hm. rewrite Hm. reflexivity.
Qed.

(** C2, as the code has it.  Merging an empty update into [A] gives [A]
    without its own metadata entry, whenever that entry is absent or a
    mapping.  Merging [B] into an empty base gives [B] as the call leaves it,
    that is without the metadata entries of [B] and of the mappings nested
    in it through mapping values, provided that every such metadata entry is
    a mapping that names ['concat'] or ['replace'] for the lists of its
    level (['replace'] for a set) and that keys are not repeated.  Under
    ['keep'], ['and'] or ['or'] the sequence does not come out as it went
    in. *)
Theorem merge_with_empty :
  (forall (o : options) (A m : dict) (flag : bool),
      metadata_of (metadata_key o) A = Some m ->
      update_dict_subkeys o (VDict A) (VDict []) flag
      = Ok (VDict (dict_remove A (metadata_key o))))
  /\ (forall (o : options) (B : value) (flag : bool),
         is_mapping B = true ->
         plain_update (metadata_key o) B = true ->
         update_dict_subkeys o (VDict []) B flag
         = Ok (update_popped (metadata_key o) B)).
Proof.
  split.
  - intros o A m flag Hm. eapply merge_of_empty; eauto.
  - intros o B flag HB Hplain. now apply merge_into_empty.
Qed.

Lemma merge_with_empty_witness :
  update_dict_subkeys no_options
    (VDict [("a", VList [VInt 1]);
            (DEFAULT_METADATA_KEY, VDict [("a", VStr "and")])])
    (VDict []) true
  = Ok (VDict [("a", VList [VInt 1])])
  /\ update_dict_subkeys no_options (VDict [])
       (VDict [("a", VList [VInt 1; VInt 1]);
               ("c", VDict [(DEFAULT_METADATA_KEY, VDict [("x", VStr "replace")]);
                            ("x", VList [VDict [("y", VNone)]])]);
               ("n", VNone);
               (DEFAULT_METADATA_KEY, VDict [("a", VStr "concat")])])
       true
     = Ok (VDict [("a", VList [VInt 1; VInt 1]);
                  ("c", VDict [("x", VList [VDict [("y", VNone)]])]);
                  ("n", VNone)]).
Proof.
  split.
  - apply (proj1 merge_with_empty no_options
             [("a", VList [VInt 1]);
              (DEFAULT_METADATA_KEY, VDict [("a", VStr "and")])]
             [("a", VStr "and")] true).
    reflexivity.
  - apply (proj2 merge_with_empty no_options
             (VDict [("a", VList [VInt 1; VInt 1]);
                     ("c", VDict [(DEFAULT_METADATA_KEY, VDict [("x", VStr "replace")]);
                                  ("x", VList [VDict [("y", VNone)]])]);
                     ("n", VNone);
                     (DEFAULT_METADATA_KEY, VDict [("a", VStr "concat")])])
             true);
      reflexivity.
Defined.

(** C2 as stated fails: under ['keep'] the merge of [B] into an empty
    mapping leaves an empty list where [B] has [[1, 2, 3]]; under ['and'] it
    leaves an empty set, under ['or'] a set. *)
Lemma merge_into_empty_loses_sequence :
  update_dict_subkeys no_options (VDict [])
    (VDict [("a", VList [VInt 1; VInt 2; VInt 3]);
            (DEFAULT_METADATA_KEY, VDict [("a", VStr "keep")])]) false
  <> Ok (update_popped DEFAULT_METADATA_KEY
           (VDict [("a", VList [VInt 1; VInt 2; VInt 3]);
                   (DEFAULT_METADATA_KEY, VDict [("a", VStr "keep")])]))
  /\ update_dict_subkeys no_options (VDict [])
       (VDict [("a", VList [VInt 1; VInt 2; VInt 3]);
               (DEFAULT_METADATA_KEY, VDict [("a", VStr "keep")])]) false
     = Ok (VDict [("a", VList [])])
  /\ update_popped DEFAULT_METADATA_KEY
       (VDict [("a", VList [VInt 1; VInt 2; VInt 3]);
               (DEFAULT_METADATA_KEY, VDict [("a", VStr "keep")])])
     = VDict [("a", VList [VInt 1; VInt 2; VInt 3])]
  /\ update_dict_subkeys no_options (VDict [])
       (VDict [("a", VList [VInt 1; VInt 2; VInt 3]);
               (DEFAULT_METADATA_KEY, VDict [("a", VStr "and")])]) false
     = Ok (VDict [("a", VSet [])])
  /\ update_dict_subkeys no_options (VDict [])
       (VDict [("a", VList [VInt 1; VInt 2; VInt 3]);
               (DEFAULT_METADATA_KEY, VDict [("a", VStr "or")])]) false
     = Ok (VDict [("a", VSet [VInt 1; VInt 2; VInt 3])]).
Proof.
  split; [intros H; vm_compute in H; discriminate H|].
  repeat split; reflexivity.
Qed.

(** ** Strings *)

Lemma append_assoc (a b c : string) : (a ++ b) ++ c = a ++ (b ++ c).
Proof. induction a as [|x a IH]; simpl; congruence. Qed.

Lemma append_nil_r (a : string) : a ++ "" = a.
Proof. induction a as [|x a IH]; simpl; congruence. Qed.

Lemma length_append (a b : string) :
  String.length (a ++ b) = String.length a + String.length b.
Proof. induction a as [|x a IH]; simpl; congruence. Qed.

Lemma str_contains_char_append (c : ascii) (a b : string) :
  str_contains_char c (a ++ b) = str_contains_char c a || str_contains_char c b.
Proof.
  induction a as [|x a IH]; simpl; auto.
  now rewrite IH, orb_assoc.
Qed.

Lemma dollar_free_safe (s : string) :
  dollar_free s = true -> safe_text s = true.
Proof.
  unfold dollar_free.
  induction s as [|c s IH]; simpl; auto.
  intros H. apply negb_true_iff, orb_false_iff in H. destruct H as [Hc Hs].
  rewrite Hc. simpl. apply IH. now apply negb_true_iff.
Qed.

(** No token starts at a position inside a safe text, whatever follows the
    text. *)
Lemma safe_text_head (c : ascii) (t rest : string) :
  safe_text (String c t) = true ->
  token_start (String c (t ++ rest)) = false /\ safe_text t = true.
Proof.
  cbn [safe_text]. intros H.
  apply andb_true_iff in H. destruct H as [Hc Ht]. split; auto.
  unfold token_start.
  destruct (Ascii.eqb c char_dollar); simpl in *.
  - destruct t as [|c2 t]; [discriminate|]. simpl.
    now apply negb_true_iff in Hc.
  - now destruct (t ++ rest).
Qed.

Lemma TEMPLATE_REPLACEMENT_append (n rest : string) :
  TEMPLATE_REPLACEMENT n ++ rest
  = String char_dollar (String char_lbrace (n ++ String char_rbrace rest)).
Proof.
  unfold TEMPLATE_REPLACEMENT. simpl. now rewrite append_assoc.
Qed.

Lemma prefix_append (a rest : string) : String.prefix a (a ++ rest) = true.
Proof.
  induction a as [|x a IH]; simpl.
  - now destruct rest.
  - destruct (ascii_dec x x); [assumption | contradiction].
Qed.

Lemma prefix_cons (x y : ascii) (a s : string) :
  String.prefix (String x a) (String y s) = Ascii.eqb x y && String.prefix a s.
Proof.
  simpl. destruct (ascii_dec x y) as [->|Hne].
  - now rewrite Ascii.eqb_refl.
  - apply Ascii.eqb_neq in Hne. now rewrite Hne.
Qed.

(** A name without closing brace, followed by one, is a prefix of another
    such name followed by one only if the two names are the same. *)
Lemma prefix_until_brace (n m rest : string) :
  str_contains_char char_rbrace n = false ->
  str_contains_char char_rbrace m = false ->
  String.prefix (n ++ String char_rbrace "") (m ++ String char_rbrace rest) = true ->
  n = m.
Proof.
  revert m.
  induction n as [|x n IH]; intros [|y m]; cbn [append str_contains_char];
    intros Hn Hm Hp; auto.
  - rewrite prefix_cons in Hp. apply andb_true_iff in Hp. destruct Hp as [E _].
    apply orb_false_iff in Hm. destruct Hm as [Hy _].
    rewrite Ascii.eqb_sym in E. congruence.
  - rewrite prefix_cons in Hp. apply andb_true_iff in Hp. destruct Hp as [E _].
    apply orb_false_iff in Hn. destruct Hn as [Hx _]. congruence.
  - rewrite prefix_cons in Hp. apply andb_true_iff in Hp. destruct Hp as [E Hp].
    apply orb_false_iff in Hn, Hm. destruct Hn as [_ Hn], Hm as [_ Hm].
    apply Ascii.eqb_eq in E. subst y. f_equal. eapply IH; eauto.
Qed.

(** *** [findall] on a template *)

Lemma match_no_start (s : string) :
  token_start s = false -> REGEX_TEMPLATE_VAR_match s = None.
Proof.
  unfold token_start, REGEX_TEMPLATE_VAR_match.
  destruct s as [|c1 [|c2 [|c3 s]]]; auto.
  intros H. now rewrite H.
Qed.

Lemma findall_from_no_start (c : ascii) (s : string) :
  token_start (String c s) = false ->
  findall_from 0 (String c s) = findall_from 0 s.
Proof. intros H. cbn [findall_from]. now rewrite (match_no_start _ H). Qed.

Lemma findall_from_text (t rest : string) :
  safe_text t = true ->
  findall_from 0 (t ++ rest) = findall_from 0 rest.
Proof.
  induction t as [|c t IH]; intros H; auto.
  destruct (safe_text_head c t rest H) as [Hc Ht].
  cbn [append]. rewrite (findall_from_no_start _ _ Hc). auto.
Qed.

Lemma lazy_group_plain (n rest : string) :
  str_contains_char char_rbrace n = false ->
  str_contains_char char_newline n = false ->
  lazy_group (n ++ String char_rbrace rest) = Some n.
Proof.
  induction n as [|c n IH]; cbn [append lazy_group str_contains_char];
    intros Hb Hn.
  - now rewrite Ascii.eqb_refl.
  - apply orb_false_iff in Hb, Hn. destruct Hb as [Hc Hb], Hn as [Hc' Hn].
    rewrite Hc, Hc', IH; auto.
Qed.

Lemma plain_name_parts (n : string) :
  plain_name n = true ->
  n <> ""
  /\ dollar_free n = true
  /\ str_contains_char char_rbrace n = false
  /\ str_contains_char char_newline n = false.
Proof.
  unfold plain_name. intros H.
  repeat (apply andb_true_iff in H; destruct H as [H ?]).
  repeat split; try (now apply negb_true_iff); auto.
  apply negb_true_iff in H. now apply String.eqb_neq in H.
Qed.

Lemma match_token (n rest : string) :
  plain_name n = true ->
  REGEX_TEMPLATE_VAR_match (TEMPLATE_REPLACEMENT n ++ rest) = Some n.
Proof.
  intros H. apply plain_name_parts in H. destruct H as [Hne [_ [Hb Hn]]].
  rewrite TEMPLATE_REPLACEMENT_append.
  destruct n as [|c n]; [contradiction|].
  cbn [append str_contains_char] in *.
  apply orb_false_iff in Hb, Hn. destruct Hb as [_ Hb], Hn as [Hc Hn].
  unfold REGEX_TEMPLATE_VAR_match.
  rewrite !Ascii.eqb_refl, Hc. cbn [andb negb].
  now rewrite lazy_group_plain.
Qed.

Lemma findall_from_skip (x rest : string) :
  findall_from (String.length x) (x ++ rest) = findall_from 0 rest.
Proof. induction x as [|c x IH]; simpl; auto. Qed.

Lemma findall_from_match (c : ascii) (s t : string) :
  REGEX_TEMPLATE_VAR_match (String c s) = Some t ->
  findall_from 0 (String c s) = t :: findall_from (String.length t + 2) s.
Proof. intros H. cbn [findall_from]. now rewrite H. Qed.

Lemma findall_from_token (n rest : string) :
  plain_name n = true ->
  findall_from 0 (TEMPLATE_REPLACEMENT n ++ rest) = n :: findall_from 0 rest.
Proof.
  intros H.
  pose proof (match_token n rest H) as Hm.
  rewrite TEMPLATE_REPLACEMENT_append in *.
  rewrite (findall_from_match _ _ _ Hm). f_equal.
  replace (String char_lbrace (n ++ String char_rbrace rest))
    with ((String char_lbrace (n ++ String char_rbrace "")) ++ rest)
    by (simpl; now rewrite append_assoc).
  replace (String.length n + 2)
    with (String.length (String char_lbrace (n ++ String char_rbrace "")))
    by (simpl; rewrite length_append; simpl; lia).
  apply findall_from_skip.
Qed.

Lemma findall_render_append (t : template) (rest : string) :
  plain_template t = true ->
  findall_from 0 (render t ++ rest) = (token_names t ++ findall_from 0 rest)%list.
Proof.
  induction t as [|[s|n] t IH]; cbn [render plain_template token_names];
    intros H; auto;
    apply andb_true_iff in H; destruct H as [H1 H2];
    rewrite append_assoc.
  - rewrite findall_from_text by assumption. auto.
  - rewrite findall_from_token by assumption. simpl. f_equal. auto.
Qed.

Lemma findall_render (t : template) :
  plain_template t = true ->
  REGEX_TEMPLATE_VAR_findall (render t) = token_names t.
Proof.
  intros H. unfold REGEX_TEMPLATE_VAR_findall.
  rewrite <- (append_nil_r (render t)).
  rewrite findall_render_append by assumption.
  simpl. apply app_nil_r.
Qed.

(** *** [replace] on a template *)

Lemma replace_from_prefix (old v : string) (c : ascii) (s : string) :
  String.prefix old (String c s) = true ->
  replace_from old v 0 (String c s)
  = v ++ replace_from old v (String.length old - 1) s.
Proof. intros H. cbn [replace_from]. now rewrite H. Qed.

Lemma replace_from_no_prefix (old v : string) (c : ascii) (s : string) :
  String.prefix old (String c s) = false ->
  replace_from old v 0 (String c s) = String c (replace_from old v 0 s).
Proof. intros H. cbn [replace_from]. now rewrite H. Qed.

Lemma prefix_token_no_start (n s : string) :
  token_start s = false ->
  String.prefix (TEMPLATE_REPLACEMENT n) s = false.
Proof.
  unfold TEMPLATE_REPLACEMENT, token_start. cbn [append].
  destruct s as [|c1 [|c2 s]]; intros H.
  - reflexivity.
  - rewrite prefix_cons. cbn [String.prefix]. apply andb_false_r.
  - rewrite !prefix_cons.
    change "$"%char with char_dollar. change "{"%char with char_lbrace.
    rewrite (Ascii.eqb_sym char_dollar), (Ascii.eqb_sym char_lbrace).
    rewrite andb_assoc, H. reflexivity.
Qed.

Lemma replace_from_text (n v t rest : string) :
  safe_text t = true ->
  replace_from (TEMPLATE_REPLACEMENT n) v 0 (t ++ rest)
  = t ++ replace_from (TEMPLATE_REPLACEMENT n) v 0 rest.
Proof.
  induction t as [|c t IH]; intros H; auto.
  destruct (safe_text_head c t rest H) as [Hc Ht].
  cbn [append].
  rewrite replace_from_no_prefix by now apply prefix_token_no_start.
  f_equal. auto.
Qed.

Lemma replace_from_skip (old v x rest : string) :
  replace_from old v (String.length x) (x ++ rest) = replace_from old v 0 rest.
Proof. induction x as [|c x IH]; simpl; auto. Qed.

Lemma replace_from_same (n v rest : string) :
  replace_from (TEMPLATE_REPLACEMENT n) v 0 (TEMPLATE_REPLACEMENT n ++ rest)
  = v ++ replace_from (TEMPLATE_REPLACEMENT n) v 0 rest.
Proof.
  pose proof (prefix_append (TEMPLATE_REPLACEMENT n) rest) as Hp.
  remember (TEMPLATE_REPLACEMENT n) as old eqn:Hold.
  rewrite Hold in Hp at 2. rewrite Hold at 2.
  rewrite TEMPLATE_REPLACEMENT_append in *.
  rewrite (replace_from_prefix _ _ _ _ Hp). f_equal.
  replace (String char_lbrace (n ++ String char_rbrace rest))
    with ((String char_lbrace (n ++ String char_rbrace "")) ++ rest)
    by (simpl; now rewrite append_assoc).
  replace (String.length old - 1)
    with (String.length (String char_lbrace (n ++ String char_rbrace "")))
    by (subst old; unfold TEMPLATE_REPLACEMENT; simpl;
        rewrite !length_append; simpl; lia).
  apply replace_from_skip.
Qed.

Lemma replace_from_other (n m v rest : string) :
  plain_name n = true -> plain_name m = true -> n <> m ->
  replace_from (TEMPLATE_REPLACEMENT n) v 0 (TEMPLATE_REPLACEMENT m ++ rest)
  = TEMPLATE_REPLACEMENT m ++ replace_from (TEMPLATE_REPLACEMENT n) v 0 rest.
Proof.
  intros Hn Hm Hne.
  apply plain_name_parts in Hn, Hm.
  destruct Hn as [_ [_ [Hnb _]]], Hm as [_ [Hmd [Hmb _]]].
  assert (Hp : String.prefix (TEMPLATE_REPLACEMENT n)
                 (TEMPLATE_REPLACEMENT m ++ rest) = false).
  { rewrite TEMPLATE_REPLACEMENT_append. unfold TEMPLATE_REPLACEMENT.
    cbn [append]. rewrite !prefix_cons.
    destruct (String.prefix (n ++ "}") (m ++ String char_rbrace rest)) eqn:E.
    - exfalso. apply Hne. eapply prefix_until_brace; eauto.
    - now rewrite !andb_false_r. }
  remember (TEMPLATE_REPLACEMENT n) as old eqn:Hold.
  rewrite TEMPLATE_REPLACEMENT_append in *.
  rewrite (replace_from_no_prefix _ _ _ _ Hp).
  replace (String char_lbrace (m ++ String char_rbrace rest))
    with ((String char_lbrace (m ++ String char_rbrace "")) ++ rest)
    by (simpl; now rewrite append_assoc).
  subst old. rewrite replace_from_text.
  - rewrite TEMPLATE_REPLACEMENT_append. simpl. now rewrite append_assoc.
  - apply dollar_free_safe. unfold dollar_free in *. simpl.
    rewrite str_contains_char_append. simpl.
    apply negb_true_iff in Hmd. now rewrite Hmd.
Qed.

Lemma inert_for_parts (names : list string) (t : template) :
  inert_for names t = true ->
  plain_template t = true
  /\ forall n, In n (token_names t) -> ~ In n names.
Proof.
  unfold inert_for. intros H. apply andb_true_iff in H. destruct H as [Hp Hf].
  split; auto. intros n Hin Hn.
  rewrite forallb_forall in Hf. specialize (Hf n Hin).
  apply negb_true_iff in Hf. apply mem_string_In in Hn. congruence.
Qed.

(** A text cut into safe pieces and plain tokens of other names goes through
    the replacement of [${n}] unchanged. *)
Lemma replace_from_inert (n v : string) (t : template) (rest : string) :
  plain_name n = true ->
  plain_template t = true ->
  ~ In n (token_names t) ->
  replace_from (TEMPLATE_REPLACEMENT n) v 0 (render t ++ rest)
  = render t ++ replace_from (TEMPLATE_REPLACEMENT n) v 0 rest.
Proof.
  intros Hn.
  induction t as [|[s|m] t IH]; cbn [render plain_template token_names];
    intros Hp Hnot; auto;
    apply andb_true_iff in Hp; destruct Hp as [H1 H2];
    rewrite !append_assoc.
  - rewrite replace_from_text by assumption. now rewrite IH.
  - rewrite replace_from_other; auto.
    + rewrite IH; auto. intros Hin. apply Hnot. now right.
    + intros ->. apply Hnot. now left.
Qed.

Section Substitution.
Variable f : string -> string.
Variable t0 : template.

(** What is put in for a token of [t0] is inert for the tokens of [t0]. *)
Hypothesis f_inert :
  forall m, In m (token_names t0) ->
            exists T, f m = render T /\ inert_for (token_names t0) T = true.

Lemma replace_render_some (n : string) (p : string -> bool) (t : template)
    (rest : string) :
  plain_name n = true ->
  In n (token_names t0) ->
  plain_template t = true ->
  incl (token_names t) (token_names t0) ->
  replace_from (TEMPLATE_REPLACEMENT n) (f n) 0 (render_some f p t ++ rest)
  = render_some f (fun m => String.eqb n m || p m) t
      ++ replace_from (TEMPLATE_REPLACEMENT n) (f n) 0 rest.
Proof.
  intros Hn Hin0.
  induction t as [|[s|m] t IH];
    cbn [render_some plain_template token_names];
    intros Hp Hincl; auto;
    apply andb_true_iff in Hp; destruct Hp as [H1 H2];
    rewrite !append_assoc.
  - rewrite replace_from_text by assumption. now rewrite IH.
  - assert (Hm0 : In m (token_names t0)) by (apply Hincl; now left).
    assert (Hincl' : incl (token_names t) (token_names t0))
      by (intros x Hx; apply Hincl; now right).
    destruct (p m) eqn:Epm.
    + rewrite orb_true_r.
      destruct (f_inert m Hm0) as [T [HT Hinert]].
      apply inert_for_parts in Hinert. destruct Hinert as [HTp HTn].
      rewrite HT.
      rewrite replace_from_inert; auto.
      * now rewrite IH.
      * intros Hx. now apply (HTn n).
    + rewrite orb_false_r.
      destruct (String.eqb_spec n m) as [->|Hne].
      * rewrite replace_from_same. now rewrite IH.
      * rewrite replace_from_other; auto. now rewrite IH.
Qed.

Lemma render_some_ext (p q : string -> bool) (t : template) :
  (forall m, In m (token_names t) -> p m = q m) ->
  render_some f p t = render_some f q t.
Proof.
  induction t as [|[s|m] t IH]; cbn [render_some token_names]; intros H; auto.
  - now rewrite IH.
  - rewrite (H m) by now left. rewrite IH; auto.
    intros x Hx. apply H. now right.
Qed.

Lemma render_some_none (t : template) :
  render_some f (fun _ => false) t = render t.
Proof.
  induction t as [|[s|m] t IH]; cbn [render_some render]; congruence.
Qed.

Lemma render_some_all (p : string -> bool) (t : template) :
  (forall m, In m (token_names t) -> p m = true) ->
  render_some f p t = render_with f t.
Proof.
  induction t as [|[s|m] t IH];
    cbn [render_some render_with token_names]; intros H; auto.
  - now rewrite IH.
  - rewrite (H m) by now left. rewrite IH; auto.
    intros x Hx. apply H. now right.
Qed.

Lemma plain_template_names (t : template) (n : string) :
  plain_template t = true -> In n (token_names t) -> plain_name n = true.
Proof.
  induction t as [|[s|m] t IH]; cbn [plain_template token_names];
    intros Hp Hin; try contradiction;
    apply andb_true_iff in Hp; destruct Hp as [H1 H2]; auto.
  destruct Hin as [->|Hin]; auto.
Qed.

Lemma fold_replace_render_some (l : list string) :
  plain_template t0 = true ->
  incl l (token_names t0) ->
  forall p,
    fold_left
      (fun acc token => str_replace acc (TEMPLATE_REPLACEMENT token) (f token))
      l (render_some f p t0)
    = render_some f (fun m => mem_string m l || p m) t0.
Proof.
  intros Hp.
  induction l as [|n l IH]; intros Hincl p; cbn [fold_left mem_string].
  - apply render_some_ext. auto.
  - assert (Hn0 : In n (token_names t0)) by (apply Hincl; now left).
    unfold str_replace at 2.
    rewrite <- (append_nil_r (render_some f p t0)).
    rewrite replace_render_some; auto using incl_refl.
    + cbn [replace_from]. rewrite append_nil_r.
      rewrite IH by (intros x Hx; apply Hincl; now right).
      apply render_some_ext. intros m _.
      destruct (String.eqb n m), (mem_string m l), (p m); reflexivity.
    + eapply plain_template_names; eauto.
Qed.

Lemma fold_replace_render :
  plain_template t0 = true ->
  fold_left
    (fun acc token => str_replace acc (TEMPLATE_REPLACEMENT token) (f token))
    (token_names t0) (render t0)
  = render_with f t0.
Proof.
  intros Hp.
  rewrite <- render_some_none.
  rewrite fold_replace_render_some; auto using incl_refl.
  apply render_some_all. intros m Hm.
  apply mem_string_In in Hm. now rewrite Hm.
Qed.
End Substitution.

(** On a template whose substituted texts are inert for its own tokens,
    [_replace_template] puts the string of the looked-up value in the place
    of each token and changes nothing else. *)
Lemma replace_template_render (lookup : string -> value) (t : template) :
  plain_template t = true ->
  (forall m, In m (token_names t) ->
             exists T, py_str (lookup m) = render T
                       /\ inert_for (token_names t) T = true) ->
  _replace_template lookup (VStr (render t))
  = VStr (render_with (fun n => py_str (lookup n)) t).
Proof.
  intros Hp Hinert. unfold _replace_template.
  rewrite findall_render by assumption.
  f_equal.
  apply (fold_replace_render (fun n => py_str (lookup n)) t Hinert Hp).
Qed.

(** *** The one-pass substitution on a template *)

Lemma single_pass_no_start (lookup : string -> value) (c : ascii) (s : string) :
  token_start (String c s) = false ->
  single_pass_from lookup 0 (String c s)
  = String c (single_pass_from lookup 0 s).
Proof. intros H. cbn [single_pass_from]. now rewrite (match_no_start _ H). Qed.

Lemma single_pass_text (lookup : string -> value) (t rest : string) :
  safe_text t = true ->
  single_pass_from lookup 0 (t ++ rest) = t ++ single_pass_from lookup 0 rest.
Proof.
  induction t as [|c t IH]; intros H; auto.
  destruct (safe_text_head c t rest H) as [Hc Ht].
  cbn [append]. rewrite (single_pass_no_start _ _ _ Hc). f_equal. auto.
Qed.

Lemma single_pass_skip (lookup : string -> value) (x rest : string) :
  single_pass_from lookup (String.length x) (x ++ rest)
  = single_pass_from lookup 0 rest.
Proof. induction x as [|c x IH]; simpl; auto. Qed.

Lemma single_pass_match (lookup : string -> value) (c : ascii) (s t : string) :
  REGEX_TEMPLATE_VAR_match (String c s) = Some t ->
  single_pass_from lookup 0 (String c s)
  = py_str (lookup t) ++ single_pass_from lookup (String.length t + 2) s.
Proof. intros H. cbn [single_pass_from]. now rewrite H. Qed.

Lemma single_pass_token (lookup : string -> value) (n rest : string) :
  plain_name n = true ->
  single_pass_from lookup 0 (TEMPLATE_REPLACEMENT n ++ rest)
  = py_str (lookup n) ++ single_pass_from lookup 0 rest.
Proof.
  intros H.
  pose proof (match_token n rest H) as Hm.
  rewrite TEMPLATE_REPLACEMENT_append in *.
  rewrite (single_pass_match _ _ _ _ Hm). f_equal.
  replace (String char_lbrace (n ++ String char_rbrace rest))
    with ((String char_lbrace (n ++ String char_rbrace "")) ++ rest)
    by (simpl; now rewrite append_assoc).
  replace (String.length n + 2)
    with (String.length (String char_lbrace (n ++ String char_rbrace "")))
    by (simpl; rewrite length_append; simpl; lia).
  apply single_pass_skip.
Qed.

Lemma single_pass_render (lookup : string -> value) (t : template) :
  plain_template t = true ->
  single_pass lookup (render t)
  = render_with (fun n => py_str (lookup n)) t.
Proof.
  unfold single_pass.
  induction t as [|[s|n] t IH]; cbn [render render_with plain_template];
    intros H; auto;
    apply andb_true_iff in H; destruct H as [H1 H2].
  - rewrite single_pass_text by assumption. now rewrite IH.
  - rewrite single_pass_token by assumption. now rewrite IH.
Qed.

(** ** Tokens inside substituted text *)

(** C4, as the code has it.  The tokens are those of the original string:
    the text put in for a token is not searched for tokens of its own.  Each
    token of the list is then replaced all over the string as it stands, so
    that the result is the one-pass substitution, with every token of the
    substituted texts left as it is, whenever those texts are cut into
    safe text (no dollar sign followed by an opening brace) and plain tokens
    none of which is named like a token of the original string.  A token
    brought in by a substituted text and named like a token of the original
    string that comes later in the list is replaced along with it. *)
Theorem substituted_text_kept :
  forall (lookup : string -> value) (t : template),
    plain_template t = true ->
    (forall m, In m (token_names t) ->
               exists T, py_str (lookup m) = render T
                         /\ inert_for (token_names t) T = true) ->
    _replace_template lookup (VStr (render t))
    = VStr (single_pass lookup (render t))
    /\ single_pass lookup (render t)
       = render_with (fun n => py_str (lookup n)) t.
Proof.
  intros lookup t Hp Hinert.
  rewrite single_pass_render by assumption.
  split; auto.
  now apply replace_template_render.
Qed.

Lemma substituted_text_kept_witness :
  _replace_template
    (data_chain_get [("c", VStr "<${a}>"); ("a", VStr "${b}"); ("b", VStr "X")] [] [])
    (VStr "<${a}>")
  = VStr "<${b}>".
Proof.
  pose (lookup :=
          data_chain_get
            [("c", VStr "<${a}>"); ("a", VStr "${b}"); ("b", VStr "X")] [] []).
  destruct (substituted_text_kept lookup [Text "<"; Tok "a"; Text ">"] eq_refl)
    as [H1 H2].
  - intros m [<-|[]]. exists [Tok "b"]. split; reflexivity.
  - exact H1.
Defined.

(** C4 as stated fails: in ['${a} ${b}'] with [a] bound to ['${b}'] and [b]
    bound to ['X'], the token that comes in with the value of [a] is
    replaced when the turn of [b] comes; the one-pass substitution would
    leave it. *)
Lemma substituted_token_expanded :
  let data := [("c", VStr "${a} ${b}"); ("a", VStr "${b}"); ("b", VStr "X")] in
  let lookup := data_chain_get data [] [] in
  py_str (lookup "a") = "${b}"
  /\ single_pass lookup "${a} ${b}" = "${b} X"
  /\ _replace_template lookup (VStr "${a} ${b}") = VStr "X X"
  /\ replace_template_variables (VDict data) [] []
     = Ok (VDict [("c", VStr "X X"); ("a", VStr "X"); ("b", VStr "X")]).
Proof. repeat split; reflexivity. Qed.

(** ** The scope chain *)




(** ** Sequences in the resolver *)

Lemma resolve_item_other (parents : list frame) (flat : dict)
    (k0 : string) (v0 : value) (cur cur1 : dict) (k : string) :
  resolve_item parents flat k0 v0 cur = Ok cur1 ->
  k0 <> k ->
  dict_get cur1 k = dict_get cur k.
Proof.
  unfold resolve_item. intros H Hne.
  destruct v0; try discriminate;
    try (inversion H; subst; auto with dict).
  bind_inv H. inversion H; subst. auto with dict.
Qed.

Lemma resolve_items_untouched (parents : list frame) (flat : dict)
    (items : list (string * value)) (k : string) :
  mem_string k (dict_keys items) = false ->
  forall cur r,
    resolve_items parents flat items cur = Ok r ->
    exists rd, r = VDict rd /\ dict_get rd k = dict_get cur k.
Proof.
  induction items as [|[k0 v0] rest IH]; simpl; intros Hk cur r H.
  - inversion H; subst. eauto.
  - apply orb_false_iff in Hk. destruct Hk as [Hk0 Hrest].
    bind_inv H.
    destruct (IH Hrest _ _ H) as [rd [-> Hrd]].
    exists rd. split; auto.
    rewrite Hrd. eapply resolve_item_other; eauto.
    now apply String.eqb_neq.
Qed.

(** What the turn for the key [k] leaves at [k] is there at the end. *)
Lemma resolve_items_at (parents : list frame) (flat : dict)
    (items : list (string * value)) (k : string) (v : value) :
  unique_keys items = true ->
  dict_get items k = Some v ->
  forall cur r,
    resolve_items parents flat items cur = Ok r ->
    exists cur1 cur2 rd,
      resolve_item parents flat k v cur1 = Ok cur2
      /\ r = VDict rd
      /\ dict_get rd k = dict_get cur2 k.
Proof.
  unfold unique_keys.
  induction items as [|[k0 v0] rest IH]; simpl; intros Hu Hget cur r H;
    [discriminate|].
  apply andb_true_iff in Hu. destruct Hu as [Hfresh Hu].
  apply negb_true_iff in Hfresh.
  bind_inv H.
  destruct (String.eqb_spec k0 k) as [->|Hne].
  - inversion Hget; subst v0.
    destruct (resolve_items_untouched _ _ _ _ Hfresh _ _ H) as [rd [-> Hrd]].
    exists cur, a, rd. auto.
  - destruct (IH Hu Hget _ _ H) as [cur1 [cur2 [rd [H1 [-> H2]]]]].
    exists cur1, cur2, rd. auto.
Qed.

Lemma replace_template_other (lookup : string -> value) (x : value) :
  is_string x = false -> _replace_template lookup x = x.
Proof. destruct x; simpl; auto; discriminate. Qed.

(** C10.  In a resolution that returns, a list bound to a key comes out as a
    list of the same length in which each element that is a string has gone
    through the substitution and each element that is not a string, be it a
    mapping or a list, is the element that was there: the tokens inside a
    mapping that is an element of a list stay as they are. *)
Theorem sequence_elements_resolved :
  (forall (data : dict) (parents : list frame) (flat : dict) (r : value)
          (k : string) (l : list value),
      unique_keys data = true ->
      replace_template_variables (VDict data) parents flat = Ok r ->
      dict_get data k = Some (VList l) ->
      exists rd lookup,
        r = VDict rd
        /\ dict_get rd k = Some (VList (map (_replace_template lookup) l))
        /\ forall i x,
             nth_error l i = Some x ->
             is_string x = false ->
             nth_error (map (_replace_template lookup) l) i = Some x)
  /\ replace_template_variables
       (VDict [("a", VStr "1");
               ("l", VList [VStr "${a}"; VDict [("x", VStr "${a}")];
                            VList [VStr "${a}"]; VInt 3])]) [] []
     = Ok (VDict [("a", VStr "1");
                  ("l", VList [VStr "1"; VDict [("x", VStr "${a}")];
                               VList [VStr "${a}"]; VInt 3])]).
Proof.
  split; [|reflexivity].
  intros data parents flat r k l Hu H Hget.
  rewrite replace_template_variables_unfold in H.
  destruct (resolve_items_at _ _ _ _ _ Hu Hget _ _ H)
    as [cur1 [cur2 [rd [H1 [-> H2]]]]].
  simpl in H1. inversion H1; subst cur2.
  rewrite dict_get_set_same in H2.
  exists rd, (data_chain_get cur1 parents flat).
  repeat split; auto.
  intros i x Hi Hx.
  rewrite nth_error_map, Hi. simpl.
  now rewrite replace_template_other.
Qed.

Lemma sequence_elements_resolved_witness :
  exists rd lookup,
    VDict [("a", VStr "1"); ("l", VList [VStr "1"; VDict [("x", VStr "${a}")]])]
    = VDict rd
    /\ dict_get rd "l"
       = Some (VList (map (_replace_template lookup)
                        [VStr "${a}"; VDict [("x", VStr "${a}")]]))
    /\ forall i x,
         nth_error [VStr "${a}"; VDict [("x", VStr "${a}")]] i = Some x ->
         is_string x = false ->
         nth_error (map (_replace_template lookup)
                      [VStr "${a}"; VDict [("x", VStr "${a}")]]) i = Some x.
Proof.
  apply (proj1 sequence_elements_resolved
           [("a", VStr "1"); ("l", VList [VStr "${a}"; VDict [("x", VStr "${a}")]])]
           [] []
           (VDict [("a", VStr "1");
                   ("l", VList [VStr "1"; VDict [("x", VStr "${a}")]])])
           "l" [VStr "${a}"; VDict [("x", VStr "${a}")]]);
    reflexivity.
Defined.

(** ** The overlay *)

Lemma pair_eqb_eq (a b : string * string) : pair_eqb a b = true <-> a = b.
Proof.
  destruct a as [a1 a2], b as [b1 b2]. unfold pair_eqb. simpl.
  rewrite andb_true_iff, !String.eqb_eq. split.
  - intros [-> ->]. reflexivity.
  - intros E. inversion E. auto.
Qed.





Lemma fold_left_raise {A B : Type} (f : result A -> B -> result A)
    (l : list B) (e : exn) :
  (forall b, f (Raise e) b = Raise e) ->
  fold_left f l (Raise e) = Raise e.
Proof.
  intros H. induction l as [|b l IH]; simpl; auto. now rewrite H.
Qed.

Lemma fold_left_flat_map {A B C : Type} (f : A -> C -> A) (g : B -> list C)
    (l : list B) (a : A) :
  fold_left f (flat_map g l) a = fold_left (fun a x => fold_left f (g x) a) l a.
Proof.
  revert a. induction l as [|x l IH]; intros a; simpl; auto.
  now rewrite fold_left_app, IH.
Qed.

Lemma fold_left_pointwise {A B : Type} (f g : A -> B -> A) (l : list B) (a : A) :
  (forall a x, f a x = g a x) -> fold_left f l a = fold_left g l a.
Proof.
  intros H. revert a. induction l as [|x l IH]; intros a; simpl; auto.
  now rewrite H, IH.
Qed.

(** The two nested loops of [get] visit the fragments in the order of
    [fragment_order]. *)
Lemma get_body_order (fs : file_tree) (c : data_cache)
    (names folders : str_or_tuple) :
  get_body fs c names folders
  = fold_left (fun acc p => get_step fs (fst p) (snd p) acc)
      (fragment_order (as_tuple names) (as_tuple folders))
      (Ok (VDict [], c)).
Proof.
  unfold get_body, fragment_order.
  rewrite fold_left_flat_map.
  apply fold_left_pointwise. intros acc folder.
  generalize (DEFAULT_FILENAME :: as_tuple names) as l. intros l.
  revert acc. induction l as [|n l IH]; intros acc; simpl; auto.
Qed.











(** A fragment that is asked for a second time is the cached object, which
    the first merge has left without its metadata: the list that
    ['replace'] governed the first time is concatenated the second time. *)
Lemma repeated_fragment_is_popped :
  let fs : file_tree :=
    fun folder name =>
      if String.eqb name "p"
      then Some (Ok (VDict [("a", VList [VInt 1]);
                            (DEFAULT_METADATA_KEY, VDict [("a", VStr "replace")])]))
      else None in
  returned (VariableOverlay_get fs fresh_state (Tuple ["p"; "p"]) (Tuple []))
  = Ok (VDict [("a", VList [VInt 1; VInt 1])])
  /\ overlay_fold fs [("", "_default"); ("", "p"); ("", "p")]
     = Ok (VDict [("a", VList [VInt 1])]).
Proof. split; reflexivity. Qed.

(** * Further properties of the merge *)

Lemma dict_mem_keys (d : dict) (k : string) :
  dict_mem d k = mem_string k (dict_keys d).
Proof.
  unfold dict_mem.
  induction d as [|[k0 v0] d IH]; simpl; auto.
  destruct (String.eqb k0 k); simpl; auto.
Qed.

Lemma dict_keys_set (d : dict) (k : string) (v : value) :
  dict_keys (dict_set d k v) =
  if dict_mem d k then dict_keys d else (dict_keys d ++ [k])%list.
Proof.
  unfold dict_mem.
  induction d as [|[k0 v0] d IH]; simpl; auto.
  destruct (String.eqb_spec k0 k) as [->|Hne]; simpl; auto.
  rewrite IH. now destruct (dict_get d k).
Qed.

(** What one turn of the merge loop can do to the base. *)
Lemma merge_item_cases (o : options) (flag : bool) (meta : dict)
    (k : string) (v : value) (d d1 : dict) :
  merge_item o flag meta k v d = Ok d1 ->
  (d1 = d /\ (k = metadata_key o \/ dict_mem d k = true))
  \/ (k <> metadata_key o /\ exists x, d1 = dict_set d k x).
Proof.
  unfold merge_item. intros H.
  destruct (String.eqb_spec k (metadata_key o)) as [E|Hne].
  - inversion H; subst. auto.
  - destruct v;
      try (destruct (dict_mem d k) eqn:Em;
           [destruct (flag && true && _); inversion H; subst; eauto
           |rewrite andb_false_r in H; simpl in H; inversion H; subst; eauto]);
      repeat bind_inv H; inversion H; subst; eauto.
Qed.

(** X1.  A key of the base that the update does not have keeps its value
    through a call that returns (the metadata key apart, which is always
    removed). *)
Theorem untouched_keys_kept :
  forall (o : options) (flag : bool) (d u : dict) (r : value) (k : string),
    update_dict_subkeys o (VDict d) (VDict u) flag = Ok r ->
    dict_get u k = None ->
    k <> metadata_key o ->
    exists rd, r = VDict rd /\ dict_get rd k = dict_get d k.
Proof.
  intros o flag d u r k H Hu Hk.
  apply update_dict_subkeys_ok in H. destruct H as [dm [um [_ [_ H]]]].
  destruct (merge_items_untouched _ _ _ _ _ (dict_get_none_not_key _ _ Hu) _ _ H)
    as [rd [-> Hrd]].
  exists rd. split; auto.
  now rewrite Hrd, dict_get_remove_other.
Qed.

Lemma untouched_keys_kept_witness :
  exists rd,
    VDict [("a", VInt 1); ("b", VList [VInt 2; VInt 3])] = VDict rd
    /\ dict_get rd "a"
       = dict_get [("a", VInt 1); ("b", VList [VInt 2]);
                   (DEFAULT_METADATA_KEY, VDict [])] "a".
Proof.
  apply (untouched_keys_kept no_options false
           [("a", VInt 1); ("b", VList [VInt 2]); (DEFAULT_METADATA_KEY, VDict [])]
           [("b", VList [VInt 3])]
           (VDict [("a", VInt 1); ("b", VList [VInt 2; VInt 3])]) "a");
    try reflexivity.
  discriminate.
Defined.

Lemma filter_pointwise {A : Type} (f g : A -> bool) (l : list A) :
  (forall x, In x l -> f x = g x) -> filter f l = filter g l.
Proof.
  induction l as [|x l IH]; simpl; intros H; auto.
  rewrite (H x) by now left. rewrite IH; auto.
Qed.

Lemma merge_items_keys (o : options) (flag : bool) (meta : dict)
    (items : list (string * value)) :
  unique_keys items = true ->
  forall d rd,
    merge_items o flag meta items d = Ok (VDict rd) ->
    dict_keys rd =
    (dict_keys d
     ++ filter (fun k => negb (String.eqb k (metadata_key o)) && negb (dict_mem d k))
          (dict_keys items))%list.
Proof.
  unfold unique_keys.
  induction items as [|[k v] rest IH]; simpl; intros Hu d rd H.
  - inversion H; subst. now rewrite app_nil_r.
  - apply andb_true_iff in Hu. destruct Hu as [Hfresh Hu].
    apply negb_true_iff in Hfresh.
    bind_inv H.
    rewrite (IH Hu _ _ H).
    assert (Hrest : forall x,
               filter (fun k0 => negb (String.eqb k0 (metadata_key o))
                                 && negb (dict_mem (dict_set d k x) k0))
                 (dict_keys rest)
               = filter (fun k0 => negb (String.eqb k0 (metadata_key o))
                                   && negb (dict_mem d k0))
                   (dict_keys rest)).
    { intros x. apply filter_pointwise. intros k0 Hin.
      rewrite dict_mem_set_other; auto.
      intros ->. apply mem_string_In in Hin. unfold dict_keys in Hfresh.
      unfold dict_keys in Hin. congruence. }
    destruct (merge_item_cases _ _ _ _ _ _ _ Ha) as [[-> Hc]|[Hne [x ->]]].
    + destruct Hc as [->|Hm].
      * now rewrite String.eqb_refl.
      * rewrite Hm. now rewrite andb_false_r.
    + rewrite Hrest, dict_keys_set.
      apply String.eqb_neq in Hne. rewrite Hne. simpl.
      destruct (dict_mem d k); simpl; auto.
      now rewrite <- app_assoc.
Qed.

(** X2.  The keys of the result of a call that returns are the keys of the
    base in their order, the metadata key left out, followed by the keys of
    the update that the base does not have, in the order of the update. *)
Theorem merged_keys :
  forall (o : options) (flag : bool) (d u rd : dict),
    unique_keys u = true ->
    update_dict_subkeys o (VDict d) (VDict u) flag = Ok (VDict rd) ->
    dict_keys rd =
    (dict_keys (dict_remove d (metadata_key o))
     ++ filter (fun k => negb (String.eqb k (metadata_key o)) && negb (dict_mem d k))
          (dict_keys u))%list.
Proof.
  intros o flag d u rd Hu H.
  apply update_dict_subkeys_ok in H. destruct H as [dm [um [_ [_ H]]]].
  rewrite (merge_items_keys _ _ _ _ Hu _ _ H). f_equal.
  apply filter_pointwise. intros k _.
  destruct (String.eqb_spec k (metadata_key o)) as [|Hne]; simpl; auto.
  unfold dict_mem. now rewrite dict_get_remove_other.
Qed.

Lemma merged_keys_witness :
  dict_keys [("a", VInt 1); ("b", VInt 5); ("c", VInt 3); ("z", VNone)]
  = ["a"; "b"; "c"; "z"].
Proof.
  apply (merged_keys no_options false
           [("a", VInt 1); (DEFAULT_METADATA_KEY, VDict []); ("b", VInt 2);
            ("c", VInt 3)]
           [("z", VNone); ("b", VInt 5)]
           [("a", VInt 1); ("b", VInt 5); ("c", VInt 3); ("z", VNone)]);
    reflexivity.
Defined.

(** X3.  A metadata entry that is not a mapping, in the base or in the
    update, makes the call raise [TypeError] before anything is merged. *)
Theorem metadata_must_be_mapping :
  forall (o : options) (flag : bool) (d u : dict),
    metadata_of (metadata_key o) d = None
    \/ metadata_of (metadata_key o) u = None ->
    update_dict_subkeys o (VDict d) (VDict u) flag = Raise TypeError.
Proof.
  intros o flag d u H.
  rewrite update_dict_subkeys_unfold.
  cbn [py_pop bind].
  destruct (py_unpack_mapping (dict_get_default d (metadata_key o) (VDict [])))
    as [dm|e] eqn:Ed.
  - cbn [bind].
    destruct (py_unpack_mapping (dict_get_default u (metadata_key o) (VDict [])))
      as [um|e] eqn:Eu.
    + apply metadata_of_unpack in Ed, Eu.
      destruct H as [H|H]; congruence.
    + cbn [bind]. unfold py_unpack_mapping in Eu.
      destruct (dict_get_default u (metadata_key o) (VDict []));
        inversion Eu; reflexivity.
  - cbn [bind]. unfold py_unpack_mapping in Ed.
    destruct (dict_get_default d (metadata_key o) (VDict []));
      inversion Ed; reflexivity.
Qed.

Lemma metadata_must_be_mapping_witness :
  update_dict_subkeys no_options
    (VDict [("a", VInt 1)])
    (VDict [("a", VInt 2); (DEFAULT_METADATA_KEY, VStr "and")]) false
  = Raise TypeError.
Proof.
  apply metadata_must_be_mapping. right. reflexivity.
Defined.

(** What a returning call leaves at a key whose update value is a
    sequence. *)
Lemma merge_sequence_at (o : options) (flag : bool) (d u : dict) (r : value)
    (k : string) (b : value) (dm um : dict) :
  unique_keys u = true ->
  metadata_of (metadata_key o) d = Some dm ->
  metadata_of (metadata_key o) u = Some um ->
  unique_keys um = true ->
  update_dict_subkeys o (VDict d) (VDict u) flag = Ok r ->
  dict_get u k = Some b ->
  is_sequence b = true ->
  k <> metadata_key o ->
  exists f x rd,
    META_funcs_combine (strategy_for dm um k) = Ok f
    /\ f (dict_get_default d k (VList [])) b = Ok x
    /\ r = VDict rd
    /\ dict_get rd k = Some x.
Proof.
  intros Hu Hdm Hum Humu H Hget Hseq Hk.
  apply update_dict_subkeys_ok in H. destruct H as [dm' [um' [Hd' [Hu' H]]]].
  apply metadata_of_unpack in Hd', Hu'.
  rewrite Hdm in Hd'. rewrite Hum in Hu'. inversion Hd'; inversion Hu'; subst.
  destruct (merge_items_at _ _ _ _ _ _ Hu Hget _ _ H)
    as [d1 [d2 [rd [H1 [H2 [-> H3]]]]]].
  rewrite dict_get_remove_other in H1 by auto.
  unfold merge_item in H2.
  destruct (String.eqb_spec k (metadata_key o)); [contradiction|].
  assert (Hs : dict_get_default (dict_update dm' um') k (VStr "concat")
               = strategy_for dm' um' k).
  { unfold dict_get_default, strategy_for.
    rewrite dict_get_update by assumption.
    destruct (dict_get um' k); auto. }
  assert (Hb : dict_get_default d1 k (VList []) = dict_get_default d k (VList []))
    by (unfold dict_get_default; now rewrite H1).
  rewrite Hs, Hb in H2.
  destruct b; try discriminate;
    bind_inv H2; bind_inv H2; inversion H2; subst;
    exists a, a0, rd; repeat split; auto;
    rewrite H3; apply dict_get_set_same.
Qed.

(** X4.  When the metadata names, for a key whose update value is a
    sequence, anything else than one of the five strategies, the call does
    not return (the lookup in [META_funcs] fails). *)
Theorem unknown_strategy_raises :
  forall (o : options) (flag : bool) (d u : dict) (k : string) (b : value)
         (dm um : dict),
    unique_keys u = true ->
    metadata_of (metadata_key o) d = Some dm ->
    metadata_of (metadata_key o) u = Some um ->
    unique_keys um = true ->
    dict_get u k = Some b ->
    is_sequence b = true ->
    k <> metadata_key o ->
    is_ok (META_funcs_combine (strategy_for dm um k)) = false ->
    is_ok (update_dict_subkeys o (VDict d) (VDict u) flag) = false.
Proof.
  intros o flag d u k b dm um Hu Hdm Hum Humu Hget Hseq Hk Hs.
  destruct (update_dict_subkeys o (VDict d) (VDict u) flag) as [r|e] eqn:E;
    [|reflexivity].
  destruct (merge_sequence_at _ _ _ _ _ _ _ _ _ Hu Hdm Hum Humu E Hget Hseq Hk)
    as [f [x [rd [Hf _]]]].
  rewrite Hf in Hs. discriminate.
Qed.

Lemma unknown_strategy_raises_witness :
  update_dict_subkeys no_options
    (VDict [("a", VList [VInt 1])])
    (VDict [("a", VList [VInt 2]);
            (DEFAULT_METADATA_KEY, VDict [("a", VStr "append")])]) false
  = Raise KeyError
  /\ is_ok (update_dict_subkeys no_options
              (VDict [("a", VList [VInt 1])])
              (VDict [("a", VList [VInt 2]);
                      (DEFAULT_METADATA_KEY, VDict [("a", VStr "append")])]) false)
     = false.
Proof.
  split; [reflexivity|].
  apply (unknown_strategy_raises no_options false
           [("a", VList [VInt 1])]
           [("a", VList [VInt 2]);
            (DEFAULT_METADATA_KEY, VDict [("a", VStr "append")])]
           "a" (VList [VInt 2]) [] [("a", VStr "append")]);
    try reflexivity.
  discriminate.
Defined.

Lemma set_add_all_unhashable (l acc : list value) :
  all_hashable l = false -> set_add_all acc l = Raise TypeError.
Proof.
  revert acc. induction l as [|x l IH]; simpl; intros acc H; [discriminate|].
  destruct (py_hash x); auto.
  simpl in H. destruct (set_mem x acc); auto.
Qed.

(** X5.  Under ['and'] or ['or'] an update list that holds an unhashable
    element (a list, a mapping or a set) makes the call fail: the elements
    have to go into a set. *)
Theorem unhashable_elements_raise :
  forall (o : options) (flag : bool) (d u : dict) (k : string)
         (lb : list value) (dm um : dict),
    unique_keys u = true ->
    metadata_of (metadata_key o) d = Some dm ->
    metadata_of (metadata_key o) u = Some um ->
    unique_keys um = true ->
    dict_get u k = Some (VList lb) ->
    k <> metadata_key o ->
    strategy_for dm um k = VStr "and" \/ strategy_for dm um k = VStr "or" ->
    all_hashable lb = false ->
    is_ok (update_dict_subkeys o (VDict d) (VDict u) flag) = false.
Proof.
  intros o flag d u k lb dm um Hu Hdm Hum Humu Hget Hk Hs Hh.
  destruct (update_dict_subkeys o (VDict d) (VDict u) flag) as [r|e] eqn:E;
    [|reflexivity].
  destruct (merge_sequence_at _ _ _ _ _ _ _ _ _ Hu Hdm Hum Humu E Hget eq_refl Hk)
    as [f [x [rd [Hf [Hx _]]]]].
  exfalso.
  assert (Hb : py_set (VList lb) = Raise TypeError)
    by (simpl; now apply set_add_all_unhashable).
  destruct Hs as [Hs|Hs]; rewrite Hs in Hf; simpl in Hf; inversion Hf; subst f;
    [unfold combine_and in Hx | unfold combine_or in Hx];
    rewrite Hb in Hx;
    destruct (py_set (dict_get_default d k (VList []))); discriminate.
Qed.

Lemma unhashable_elements_raise_witness :
  is_ok (update_dict_subkeys no_options
           (VDict [("a", VList [VInt 1])])
           (VDict [("a", VList [VDict [("x", VInt 1)]]);
                   (DEFAULT_METADATA_KEY, VDict [("a", VStr "or")])]) false)
  = false.
Proof.
  apply (unhashable_elements_raise no_options false
           [("a", VList [VInt 1])]
           [("a", VList [VDict [("x", VInt 1)]]);
            (DEFAULT_METADATA_KEY, VDict [("a", VStr "or")])]
           "a" [VDict [("x", VInt 1)]] [] [("a", VStr "or")]);
    try reflexivity.
  - discriminate.
  - right. reflexivity.
Defined.

Lemma result_has_no_metadata (o : options) (flag : bool) (d u rd : dict) :
  update_dict_subkeys o (VDict d) (VDict u) flag = Ok (VDict rd) ->
  dict_get rd (metadata_key o) = None.
Proof.
  intros H.
  apply update_dict_subkeys_ok in H. destruct H as [dm [um [_ [_ H]]]].
  destruct (merge_items_keeps_metadata_key _ _ _ _ _ _ H) as [rd' [E Hmk]].
  inversion E; subst rd'. rewrite Hmk. apply dict_get_remove_same.
Qed.

Lemma metadata_of_absent (mk : string) (d : dict) :
  dict_get d mk = None -> metadata_of mk d = Some [].
Proof. unfold metadata_of. now intros ->. Qed.

(** X6.  Without metadata, two merges in a row leave at a list-valued key
    the list of the base followed by the list of the first update and then
    the list of the second: merging the same update twice repeats its
    elements. *)
Theorem lists_accumulate :
  forall (o : options) (f1 f2 : bool) (d u1 u2 : dict) (r1 r2 : value)
         (k : string) (a b1 b2 : list value),
    unique_keys u1 = true ->
    unique_keys u2 = true ->
    dict_get d (metadata_key o) = None ->
    dict_get u1 (metadata_key o) = None ->
    dict_get u2 (metadata_key o) = None ->
    dict_get_default d k (VList []) = VList a ->
    dict_get u1 k = Some (VList b1) ->
    dict_get u2 k = Some (VList b2) ->
    update_dict_subkeys o (VDict d) (VDict u1) f1 = Ok r1 ->
    update_dict_subkeys o r1 (VDict u2) f2 = Ok r2 ->
    exists rd,
      r2 = VDict rd /\ dict_get rd k = Some (VList (a ++ b1 ++ b2)%list).
Proof.
  intros o f1 f2 d u1 u2 r1 r2 k a b1 b2 Hu1 Hu2 Hd H1 H2 Ha Hb1 Hb2 E1 E2.
  assert (Hk : k <> metadata_key o) by (intros ->; congruence).
  destruct (merge_sequence_at _ _ _ _ _ _ _ _ _ Hu1
              (metadata_of_absent _ _ Hd) (metadata_of_absent _ _ H1)
              eq_refl E1 Hb1 eq_refl Hk)
    as [f [x [rd1 [Hf [Hx [-> Hr1]]]]]].
  simpl in Hf. inversion Hf; subst f.
  rewrite Ha in Hx. simpl in Hx. inversion Hx; subst x.
  pose proof (result_has_no_metadata _ _ _ _ _ E1) as Hmeta.
  destruct (merge_sequence_at _ _ _ _ _ _ _ _ _ Hu2
              (metadata_of_absent _ _ Hmeta) (metadata_of_absent _ _ H2)
              eq_refl E2 Hb2 eq_refl Hk)
    as [f [x [rd2 [Hf' [Hx' [-> Hr2]]]]]].
  simpl in Hf'. inversion Hf'; subst f.
  unfold dict_get_default in Hx'. rewrite Hr1 in Hx'.
  simpl in Hx'. inversion Hx'; subst x.
  exists rd2. split; auto. now rewrite Hr2, <- app_assoc.
Qed.

Lemma lists_accumulate_witness :
  exists rd,
    VDict [("b", VList [VInt 2; VInt 7; VInt 7])] = VDict rd
    /\ dict_get rd "b" = Some (VList [VInt 2; VInt 7; VInt 7]).
Proof.
  apply (lists_accumulate no_options false false
           [("b", VList [VInt 2])] [("b", VList [VInt 7])] [("b", VList [VInt 7])]
           (VDict [("b", VList [VInt 2; VInt 7])])
           (VDict [("b", VList [VInt 2; VInt 7; VInt 7])])
           "b" [VInt 2] [VInt 7] [VInt 7]);
    reflexivity.
Defined.

Lemma merge_item_flag (o : options) (meta : dict) (k : string) (v : value)
    (d : dict) :
  is_none v = false ->
  merge_item o true meta k v d = merge_item o false meta k v d.
Proof.
  unfold merge_item. intros Hv.
  destruct (String.eqb k (metadata_key o)); auto.
  destruct v; auto; try discriminate; simpl; now rewrite andb_false_r.
Qed.

(** X7.  [none_values_are_transparent] changes nothing when no value of the
    update itself is [None]: the [None] values of nested mappings overwrite
    with or without it. *)
Theorem transparency_needs_none :
  forall (o : options) (d : value) (u : dict),
    forallb (fun kv => negb (is_none (snd kv))) u = true ->
    update_dict_subkeys o d (VDict u) true
    = update_dict_subkeys o d (VDict u) false.
Proof.
  intros o d u Hu.
  rewrite !update_dict_subkeys_unfold.
  destruct (py_pop d (metadata_key o) (VDict [])) as [[dmeta d0]|]; auto.
  cbn [bind].
  destruct (py_unpack_mapping dmeta) as [dm|]; auto. cbn [bind].
  destruct (py_unpack_mapping _) as [um|]; auto. cbn [bind].
  generalize (dict_update dm um) as meta. intros meta.
  revert d0.
  induction u as [|[k v] rest IH]; intros d0; simpl in *; auto.
  apply andb_true_iff in Hu. destruct Hu as [Hv Hrest].
  apply negb_true_iff in Hv.
  rewrite merge_item_flag by assumption.
  destruct (merge_item o false meta k v d0); simpl; auto.
Qed.

Lemma transparency_needs_none_witness :
  update_dict_subkeys no_options
    (VDict [("a", VInt 1); ("c", VDict [("x", VInt 1)])])
    (VDict [("a", VInt 2); ("c", VDict [("x", VNone)])]) true
  = Ok (VDict [("a", VInt 2); ("c", VDict [("x", VNone)])]).
Proof.
  rewrite (transparency_needs_none no_options
             (VDict [("a", VInt 1); ("c", VDict [("x", VInt 1)])])
             [("a", VInt 2); ("c", VDict [("x", VNone)])] eq_refl).
  reflexivity.
Defined.

(** * Further properties of the resolver *)

Lemma replace_template_no_token (lookup : string -> value) (s : string) :
  no_token s = true -> _replace_template lookup (VStr s) = VStr s.
Proof.
  unfold no_token, _replace_template.
  destruct (REGEX_TEMPLATE_VAR_findall s); [reflexivity | discriminate].
Qed.

Lemma dict_set_same_value (d : dict) (k : string) (v : value) :
  dict_get d k = Some v -> dict_set d k v = d.
Proof.
  induction d as [|[k0 v0] d IH]; simpl; [discriminate|].
  destruct (String.eqb_spec k0 k) as [->|Hne]; intros H.
  - now inversion H.
  - now rewrite IH.
Qed.

Lemma token_free_dict (items : list (string * value)) :
  token_free (VDict items) =
  forallb
    (fun kv =>
       match snd kv with
       | VStr s => no_token s
       | VList l =>
           forallb (fun e => match e with VStr s => no_token s | _ => true end) l
       | VSet _ => false
       | VDict _ => token_free (snd kv)
       | VNone | VBool _ | VInt _ => true
       end) items.
Proof.
  simpl. induction items as [|[k v] rest IH]; simpl; auto.
  rewrite IH. now destruct v.
Qed.

Lemma set_valued_dict (items : list (string * value)) :
  set_valued (VDict items) =
  existsb
    (fun kv => match snd kv with VSet _ => true | x => set_valued x end) items.
Proof.
  simpl. induction items as [|[k v] rest IH]; simpl; auto.
  rewrite IH. now destruct v.
Qed.

Lemma map_replace_template_no_token (lookup : string -> value) (l : list value) :
  forallb (fun e => match e with VStr s => no_token s | _ => true end) l = true ->
  map (_replace_template lookup) l = l.
Proof.
  induction l as [|x l IH]; simpl; intros H; auto.
  apply andb_true_iff in H. destruct H as [Hx Hl].
  rewrite IH by assumption. f_equal.
  destruct x; auto. now apply replace_template_no_token.
Qed.

(** X8.  A mapping in which no string that the resolver looks at holds a
    token (the values that are strings and the strings in the values that
    are lists, in the mapping and in the mappings nested in it through
    mapping values) and in which no value is a set is returned by the
    resolver as it is, whatever the enclosing scopes hold. *)
Theorem resolve_without_tokens :
  forall (data : value) (parents : list frame) (flat : dict),
    is_mapping data = true ->
    well_formed data = true ->
    token_free data = true ->
    replace_template_variables data parents flat = Ok data.
Proof.
  induction data as [| | | |l IHl|items IH|l IHl] using value_nested_ind;
    try discriminate.
  intros parents flat _ Hwf Htf.
  rewrite replace_template_variables_unfold.
  rewrite well_formed_dict in Hwf.
  apply andb_true_iff in Hwf. destruct Hwf as [Hu Hwf].
  rewrite token_free_dict in Htf.
  rewrite forallb_forall in Hwf, Htf. rewrite Forall_forall in IH.
  assert (Hloop : forall its cur,
             (forall k v, In (k, v) its -> In (k, v) items) ->
             (forall k v, In (k, v) its -> dict_get cur k = Some v) ->
             resolve_items parents flat its cur = Ok (VDict cur)).
  { induction its as [|[k v] rest IHits]; intros cur Hsub Hcur; simpl; auto.
    assert (Hin : In (k, v) items) by (apply Hsub; now left).
    assert (Hk : dict_get cur k = Some v) by (apply Hcur; now left).
    assert (Hitem : resolve_item parents flat k v cur = Ok cur).
    { specialize (Htf _ Hin). specialize (Hwf _ Hin). specialize (IH _ Hin).
      simpl in Htf, Hwf, IH.
      unfold resolve_item.
      destruct v; try discriminate; auto.
      - rewrite replace_template_no_token by assumption.
        now rewrite dict_set_same_value.
      - rewrite map_replace_template_no_token by assumption.
        now rewrite dict_set_same_value.
      - rewrite IH by auto. simpl. now rewrite dict_set_same_value. }
    rewrite Hitem. simpl. apply IHits.
    - intros k' v' H'. apply Hsub. now right.
    - intros k' v' H'. apply Hcur. now right. }
  apply Hloop; auto.
  intros k v Hin. now apply unique_keys_get.
Qed.

Lemma resolve_without_tokens_witness :
  replace_template_variables
    (VDict [("price", VStr "$5 {a}");
            ("l", VList [VStr "${"; VDict [("x", VStr "${a}")]]);
            ("c", VDict [("n", VNone); ("s", VStr "${}")])])
    [([("a", VStr "1")], "zz")] [("a", VStr "2")]
  = Ok (VDict [("price", VStr "$5 {a}");
               ("l", VList [VStr "${"; VDict [("x", VStr "${a}")]]);
               ("c", VDict [("n", VNone); ("s", VStr "${}")])]).
Proof.
  apply resolve_without_tokens; reflexivity.
Defined.

Lemma resolve_items_outcome (parents : list frame) (flat : dict)
    (items : list (string * value)) :
  Forall
    (fun kv =>
       forall parents flat,
         is_mapping (snd kv) = true ->
         if set_valued (snd kv)
         then replace_template_variables (snd kv) parents flat = Raise TypeError
         else exists r, replace_template_variables (snd kv) parents flat
                        = Ok (VDict r)) items ->
  forall cur,
    if existsb
         (fun kv => match snd kv with VSet _ => true | x => set_valued x end) items
    then resolve_items parents flat items cur = Raise TypeError
    else exists r, resolve_items parents flat items cur = Ok (VDict r).
Proof.
  induction items as [|[k v] rest IHrest]; intros HF cur;
    cbn [existsb resolve_items snd].
  - eauto.
  - inversion HF as [|? ? Hv Hrest]; subst. cbn [snd] in Hv.
    specialize (IHrest Hrest).
    unfold resolve_item.
    destruct v as [| | | | |sub|];
      try (cbn [set_valued orb bind]; apply IHrest).
    + specialize (Hv ((cur, k) :: parents) flat eq_refl).
      destruct (set_valued (VDict sub)); cbn [orb].
      * rewrite Hv. reflexivity.
      * destruct Hv as [r ->]. cbn [bind]. apply IHrest.
    + reflexivity.
Qed.

(** X9.  On a mapping the resolver fails exactly when a set is bound to one
    of its keys or to a key of a mapping nested in it through mapping
    values, and then with [TypeError]; otherwise it returns a mapping. *)
Theorem resolve_fails_on_sets_only :
  forall (data : value) (parents : list frame) (flat : dict),
    is_mapping data = true ->
    if set_valued data
    then replace_template_variables data parents flat = Raise TypeError
    else exists r, replace_template_variables data parents flat = Ok (VDict r).
Proof.
  induction data as [| | | |l IHl|items IH|l IHl] using value_nested_ind;
    try discriminate.
  intros parents flat _.
  rewrite replace_template_variables_unfold, set_valued_dict.
  now apply resolve_items_outcome.
Qed.

Lemma resolve_fails_on_sets_only_witness :
  replace_template_variables
    (VDict [("a", VStr "${b}"); ("c", VDict [("s", VSet [VInt 1])])]) [] []
  = Raise TypeError.
Proof.
  apply (resolve_fails_on_sets_only
           (VDict [("a", VStr "${b}"); ("c", VDict [("s", VSet [VInt 1])])])
           [] [] eq_refl).
Defined.

Lemma dict_keys_set_present (d : dict) (k : string) (v : value) :
  dict_mem d k = true -> dict_keys (dict_set d k v) = dict_keys d.
Proof. intros H. now rewrite dict_keys_set, H. Qed.

Lemma resolve_item_cases (parents : list frame) (flat : dict)
    (k : string) (v : value) (cur cur1 : dict) :
  resolve_item parents flat k v cur = Ok cur1 ->
  (cur1 = cur /\ is_scalar v = true /\ is_string v = false)
  \/ exists x, cur1 = dict_set cur k x.
Proof.
  unfold resolve_item. intros H.
  destruct v; try discriminate; try (inversion H; subst; eauto).
  bind_inv H. inversion H; subst. eauto.
Qed.

Lemma resolve_items_keys (parents : list frame) (flat : dict)
    (items : list (string * value)) :
  forall cur r,
    (forall k, In k (dict_keys items) -> dict_mem cur k = true) ->
    resolve_items parents flat items cur = Ok r ->
    exists rd, r = VDict rd /\ dict_keys rd = dict_keys cur.
Proof.
  induction items as [|[k v] rest IH]; simpl; intros cur r Hin H.
  - inversion H; subst. eauto.
  - bind_inv H.
    assert (Hk : dict_mem cur k = true) by (apply Hin; now left).
    destruct (resolve_item_cases _ _ _ _ _ _ Ha) as [[-> _]|[x ->]].
    + apply IH; auto.
    + destruct (IH (dict_set cur k x) r) as [rd [-> Hrd]]; auto.
      * intros k' Hk'.
        destruct (String.eqb_spec k k') as [->|Hne].
        -- apply dict_mem_set_same.
        -- rewrite dict_mem_set_other; auto.
      * exists rd. split; auto. now rewrite Hrd, dict_keys_set_present.
Qed.

Lemma resolve_items_at_scalar (parents : list frame) (flat : dict)
    (items : list (string * value)) (k : string) (v : value) :
  unique_keys items = true ->
  dict_get items k = Some v ->
  is_scalar v = true -> is_string v = false ->
  forall cur r,
    resolve_items parents flat items cur = Ok r ->
    exists rd, r = VDict rd /\ dict_get rd k = dict_get cur k.
Proof.
  unfold unique_keys.
  induction items as [|[k0 v0] rest IH]; simpl; intros Hu Hget Hs Hstr cur r H;
    [discriminate|].
  apply andb_true_iff in Hu. destruct Hu as [Hfresh Hu].
  apply negb_true_iff in Hfresh.
  bind_inv H.
  destruct (String.eqb_spec k0 k) as [->|Hne].
  - inversion Hget; subst v0.
    destruct (resolve_items_untouched _ _ _ _ Hfresh _ _ H) as [rd [-> Hrd]].
    exists rd. split; auto. rewrite Hrd.
    destruct v; try discriminate; simpl in Ha; now inversion Ha.
  - destruct (IH Hu Hget Hs Hstr _ _ H) as [rd [-> Hrd]].
    exists rd. split; auto. rewrite Hrd.
    eapply resolve_item_other; eauto.
Qed.

(** X10.  The mapping that the resolver returns has the keys of the one it
    was given, in the same order; and each key bound to [None], a boolean
    or a number is bound to the same value afterwards. *)
Theorem resolve_keeps_keys :
  forall (data : dict) (parents : list frame) (flat : dict) (r : value),
    replace_template_variables (VDict data) parents flat = Ok r ->
    exists rd,
      r = VDict rd
      /\ dict_keys rd = dict_keys data
      /\ (unique_keys data = true ->
          forall k v,
            dict_get data k = Some v ->
            is_scalar v = true -> is_string v = false ->
            dict_get rd k = Some v).
Proof.
  intros data parents flat r H.
  rewrite replace_template_variables_unfold in H.
  destruct (resolve_items_keys parents flat data data r) as [rd [-> Hkeys]]; auto.
  { intros k Hk. rewrite dict_mem_keys. now apply mem_string_In. }
  exists rd. repeat split; auto.
  intros Hu k v Hget Hs Hstr.
  destruct (resolve_items_at_scalar _ _ _ _ _ Hu Hget Hs Hstr _ _ H)
    as [rd' [E Hrd]].
  inversion E; subst rd'. now rewrite Hrd.
Qed.

Lemma resolve_keeps_keys_witness :
  exists rd,
    VDict [("n", VInt 7); ("s", VStr "7"); ("z", VNone)] = VDict rd
    /\ dict_keys rd = ["n"; "s"; "z"]
    /\ dict_get rd "n" = Some (VInt 7).
Proof.
  destruct (resolve_keeps_keys
              [("n", VInt 7); ("s", VStr "${n}"); ("z", VNone)] [] []
              (VDict [("n", VInt 7); ("s", VStr "7"); ("z", VNone)]) eq_refl)
    as [rd [E [Hk Hv]]].
  exists rd. split; [exact E|]. split; [exact Hk|].
  apply Hv; reflexivity.
Defined.

(** * The scope chain in the resolver *)
















(** * Further properties of [merge] *)

(** X11.  A source without truth value, an empty mapping for instance,
    stops [merge] with [AssertionError] as soon as the sources before it
    have been merged, although merging an empty update is harmless. *)
Theorem empty_source_refused :
  forall (load_external : string -> result value) (before after : list value)
         (source : value) (flag : bool) (o : options) (acc : value),
    _reduce_data_sources load_external before flag o = Ok acc ->
    py_truthy source = false ->
    merge load_external (before ++ source :: after) flag o = Raise AssertionError.
Proof.
  intros load_external before after source flag o acc Hacc Hs.
  unfold merge, _reduce_data_sources in *.
  rewrite fold_left_app, Hacc. cbn [fold_left bind].
  unfold _load_data_from_source at 2. rewrite Hs. cbn [negb bind].
  rewrite fold_left_raise; auto.
Qed.

Lemma empty_source_refused_witness :
  merge no_external [VDict [("a", VInt 1)]; VDict []; VDict [("b", VInt 2)]]
    false no_options
  = Raise AssertionError
  /\ update_dict_subkeys no_options (VDict [("a", VInt 1)]) (VDict []) false
     = Ok (VDict [("a", VInt 1)]).
Proof.
  split; [|reflexivity].
  apply (empty_source_refused no_external [VDict [("a", VInt 1)]]
           [VDict [("b", VInt 2)]] (VDict []) false no_options
           (VDict [("a", VInt 1)]));
    reflexivity.
Defined.

Lemma update_result_no_metadata (o : options) (d u r : value) (flag : bool) :
  update_dict_subkeys o d u flag = Ok r ->
  exists rd, r = VDict rd /\ dict_get rd (metadata_key o) = None.
Proof.
  intros H.
  assert (Hd : exists dd, d = VDict dd).
  { rewrite update_dict_subkeys_unfold in H.
    destruct d; simpl in H; try discriminate. eauto. }
  assert (Hu : exists uu, u = VDict uu).
  { rewrite update_dict_subkeys_unfold in H.
    bind_inv H. destruct a. bind_inv H.
    destruct u; try discriminate. eauto. }
  destruct Hd as [dd ->], Hu as [uu ->].
  pose proof H as H'.
  apply update_dict_subkeys_ok in H'. destruct H' as [dm [um [_ [_ H']]]].
  destruct (merge_items_keeps_metadata_key _ _ _ _ _ _ H') as [rd [-> Hmk]].
  exists rd. split; auto. rewrite Hmk. apply dict_get_remove_same.
Qed.

Lemma reduce_result_no_metadata (load_external : string -> result value)
    (flag : bool) (o : options) (sources : list value) :
  forall d0 r,
    dict_get d0 (metadata_key o) = None ->
    fold_left
      (fun acc source =>
         a <- acc ;;
         u <- _load_data_from_source load_external source ;;
         update_dict_subkeys o a u flag)
      sources (Ok (VDict d0)) = Ok r ->
    exists rd, r = VDict rd /\ dict_get rd (metadata_key o) = None.
Proof.
  induction sources as [|s rest IH]; intros d0 r Hd0 H; cbn [fold_left] in H.
  - inversion H; subst. eauto.
  - cbn [bind] in H.
    destruct (_load_data_from_source load_external s) as [u|e]; cbn [bind] in H.
    + destruct (update_dict_subkeys o (VDict d0) u flag) as [r1|e] eqn:E.
      * destruct (update_result_no_metadata _ _ _ _ _ E) as [rd1 [-> Hrd1]].
        eapply IH; eauto.
      * rewrite fold_left_raise in H; auto. discriminate.
    + rewrite fold_left_raise in H; auto. discriminate.
Qed.

(** X12.  What [merge] returns is a mapping without the metadata key at its
    top level. *)
Theorem merge_result_without_metadata :
  forall (load_external : string -> result value) (sources : list value)
         (flag : bool) (o : options) (r : value),
    merge load_external sources flag o = Ok r ->
    exists rd, r = VDict rd /\ dict_mem rd (metadata_key o) = false.
Proof.
  intros load_external sources flag o r H.
  unfold merge in H. bind_inv H.
  unfold _reduce_data_sources in Ha.
  destruct (reduce_result_no_metadata _ _ _ _ [] a eq_refl Ha) as [d [-> Hd]].
  rewrite replace_template_variables_unfold in H.
  destruct (resolve_items_keys [] [] d d r) as [rd [-> Hkeys]]; auto.
  { intros k Hk. rewrite dict_mem_keys. now apply mem_string_In. }
  exists rd. split; auto.
  rewrite dict_mem_keys, Hkeys, <- dict_mem_keys.
  unfold dict_mem. now rewrite Hd.
Qed.

Lemma merge_result_without_metadata_witness :
  exists rd,
    VDict [("a", VList [VInt 1; VInt 2])] = VDict rd
    /\ dict_mem rd DEFAULT_METADATA_KEY = false.
Proof.
  apply (merge_result_without_metadata no_external
           [VDict [("a", VList [VInt 1]);
                   (DEFAULT_METADATA_KEY, VDict [("a", VStr "keep")])];
            VDict [("a", VList [VInt 2]);
                   (DEFAULT_METADATA_KEY, VDict [("a", VStr "replace")])];
            VDict [("a", VList [VInt 1; VInt 2]);
                   (DEFAULT_METADATA_KEY, VDict [("a", VStr "replace")])]]
           false no_options).
  reflexivity.
Defined.

(** * Further properties of the overlay *)

Lemma str_or_tuple_eqb_refl (a : str_or_tuple) :
  hashable_arg a = true -> str_or_tuple_eqb a a = true.
Proof.
  destruct a; simpl; intros H; try discriminate.
  - apply String.eqb_refl.
  - now destruct (list_eq_dec string_dec l l).
Qed.

Lemma str_or_tuple_eqb_eq (a b : str_or_tuple) :
  str_or_tuple_eqb a b = true -> a = b.
Proof.
  destruct a, b; simpl; intros H; try discriminate.
  - apply String.eqb_eq in H. now subst.
  - destruct (list_eq_dec string_dec l l0); [now subst | discriminate].
Qed.

Lemma args_eqb_eq (a b : str_or_tuple * str_or_tuple) :
  args_eqb a b = true -> a = b.
Proof.
  destruct a as [a1 a2], b as [b1 b2]. unfold args_eqb. cbn [fst snd].
  intros H. apply andb_true_iff in H. destruct H as [H1 H2].
  apply str_or_tuple_eqb_eq in H1. apply str_or_tuple_eqb_eq in H2.
  now subst.
Qed.

Section CachePosition.
Context {V : Type}.

(** An entry found among the first [m] entries is found among more. *)
Lemma lru_find_firstn_more (c : @lru (str_or_tuple * str_or_tuple) V)
    (k : str_or_tuple * str_or_tuple) (v : V) (m : nat) :
  lru_find args_eqb (firstn m c) k = Some v ->
  lru_find args_eqb (firstn (S m) c) k = Some v.
Proof.
  revert m. induction c as [|[k0 v0] c IH]; intros m H.
  - now destruct m.
  - destruct m as [|m]; [discriminate|].
    cbn [firstn lru_find] in *.
    destruct (args_eqb k0 k); auto.
Qed.

Lemma lru_find_firstn_all (c : @lru (str_or_tuple * str_or_tuple) V)
    (k : str_or_tuple * str_or_tuple) (v : V) (m : nat) :
  lru_find args_eqb (firstn m c) k = Some v ->
  lru_find args_eqb c k = Some v.
Proof.
  revert m. induction c as [|[k0 v0] c IH]; intros m H.
  - now destruct m.
  - destruct m as [|m]; [discriminate|].
    cbn [firstn lru_find] in *.
    destruct (args_eqb k0 k); eauto.
Qed.

(** A hit on another key does not push the entry back. *)
Lemma lru_find_firstn_drop (c : @lru (str_or_tuple * str_or_tuple) V)
    (k k' : str_or_tuple * str_or_tuple) (v : V) (m : nat) :
  args_eqb k' k = false ->
  lru_find args_eqb (firstn m c) k = Some v ->
  lru_find args_eqb (firstn m (lru_drop args_eqb c k')) k = Some v.
Proof.
  intros Hne. revert m. induction c as [|[k0 v0] c IH]; intros m H.
  - now destruct m.
  - destruct m as [|m]; [discriminate|].
    cbn [firstn lru_find] in H. unfold lru_drop. cbn [filter fst].
    fold (lru_drop args_eqb c k').
    destruct (args_eqb k0 k) eqn:E0.
    + assert (E1 : args_eqb k0 k' = false).
      { destruct (args_eqb k0 k') eqn:E1; auto.
        pose proof E0 as R.
        apply args_eqb_eq in E0. apply args_eqb_eq in E1. subst.
        congruence. }
      rewrite E1. cbn [negb firstn lru_find]. now rewrite E0.
    + destruct (args_eqb k0 k'); cbn [negb].
      * apply lru_find_firstn_more. auto.
      * cbn [firstn lru_find]. rewrite E0. auto.
Qed.

(** One more call moves an entry back by one place at most. *)
Lemma lru_find_after_hit (c : @lru (str_or_tuple * str_or_tuple) V)
    (k k' : str_or_tuple * str_or_tuple) (v v' : V) (m : nat) :
  lru_find args_eqb c k' = Some v' ->
  lru_find args_eqb (firstn m c) k = Some v ->
  lru_find args_eqb (firstn (S m) (lru_hit args_eqb c k' v')) k = Some v.
Proof.
  intros Hhit H. unfold lru_hit. cbn [firstn lru_find].
  destruct (args_eqb k' k) eqn:E.
  - apply args_eqb_eq in E. subst k'.
    apply lru_find_firstn_all in H. congruence.
  - now apply lru_find_firstn_drop.
Qed.

Lemma lru_find_after_store (c : @lru (str_or_tuple * str_or_tuple) V)
    (k k' : str_or_tuple * str_or_tuple) (v v' : V) (m : nat) :
  m <= CACHE_MAXSIZE - 1 ->
  lru_find args_eqb c k' = None ->
  lru_find args_eqb (firstn m c) k = Some v ->
  lru_find args_eqb (firstn (S m) (lru_store CACHE_MAXSIZE c k' v')) k = Some v.
Proof.
  intros Hm Hmiss H. unfold lru_store. cbn [firstn lru_find].
  destruct (args_eqb k' k) eqn:E.
  - apply args_eqb_eq in E. subst k'.
    apply lru_find_firstn_all in H. congruence.
  - rewrite firstn_firstn. now rewrite Nat.min_l.
Qed.
End CachePosition.

(** After a call of [get] the entry of a key is at most one place further
    from the front of the result cache. *)
Lemma get_keeps_entry (fs : file_tree) (st st' : overlay_state)
    (names folders : str_or_tuple) (x : value)
    (key : str_or_tuple * str_or_tuple) (data : value) (m : nat) :
  m <= CACHE_MAXSIZE - 1 ->
  VariableOverlay_get fs st names folders = Ok (x, st') ->
  lru_find args_eqb (firstn m (results st)) key = Some data ->
  lru_find args_eqb (firstn (S m) (results st')) key = Some data.
Proof.
  intros Hm H Hfound. unfold VariableOverlay_get in H.
  destruct (negb (hashable_arg names && hashable_arg folders)); [discriminate|].
  destruct (lru_find args_eqb (results st) (names, folders)) as [old|] eqn:E.
  - inversion H; subst. cbn [results].
    now apply lru_find_after_hit.
  - bind_inv H. destruct a as [data' c]. inversion H; subst. cbn [results].
    now apply lru_find_after_store.
Qed.

Lemma run_gets_keeps_entry
    (calls : list (file_tree * (str_or_tuple * str_or_tuple))) :
  forall (st st' : overlay_state) (key : str_or_tuple * str_or_tuple)
         (data : value) (m : nat),
    m + List.length calls <= CACHE_MAXSIZE ->
    run_gets st calls = Ok st' ->
    lru_find args_eqb (firstn m (results st)) key = Some data ->
    lru_find args_eqb (results st') key = Some data.
Proof.
  induction calls as [|[fs [names folders]] rest IH];
    intros st st' key data m Hm Hrun Hfound; cbn [run_gets List.length] in *.
  - inversion Hrun; subst. eapply lru_find_firstn_all; eauto.
  - bind_inv Hrun. destruct a as [x st1].
    apply (IH st1 st' key data (S m)); auto.
    + lia.
    + eapply get_keeps_entry; eauto. unfold CACHE_MAXSIZE in *. lia.
Qed.

(** X13.  Once [get] has returned for some arguments, a call with the same
    arguments made after at most 127 other calls of [get] (any arguments,
    all returning) still returns the same mapping, from the result cache
    and without reading any fragment, whatever the files have become. *)
Theorem get_answers_from_cache :
  forall (fs fs' : file_tree) (st st1 st2 : overlay_state)
         (names folders : str_or_tuple) (data : value)
         (calls : list (file_tree * (str_or_tuple * str_or_tuple))),
    VariableOverlay_get fs st names folders = Ok (data, st1) ->
    List.length calls < CACHE_MAXSIZE ->
    run_gets st1 calls = Ok st2 ->
    exists st3,
      VariableOverlay_get fs' st2 names folders = Ok (data, st3)
      /\ fragments st3 = fragments st2.
Proof.
  intros fs fs' st st1 st2 names folders data calls H Hlen Hrun.
  assert (Hhash : negb (hashable_arg names && hashable_arg folders) = false).
  { unfold VariableOverlay_get in H.
    destruct (negb (hashable_arg names && hashable_arg folders));
      [discriminate | reflexivity]. }
  assert (Hkey : args_eqb (names, folders) (names, folders) = true).
  { apply negb_false_iff, andb_true_iff in Hhash. destruct Hhash as [Hn Hf].
    unfold args_eqb. cbn [fst snd].
    now rewrite !str_or_tuple_eqb_refl. }
  assert (Hfirst : lru_find args_eqb (firstn 1 (results st1)) (names, folders)
                   = Some data).
  { unfold VariableOverlay_get in H. rewrite Hhash in H.
    destruct (lru_find args_eqb (results st) (names, folders)) as [old|].
    - inversion H; subst. cbn [results lru_hit firstn lru_find]. now rewrite Hkey.
    - bind_inv H. destruct a as [data' c]. inversion H; subst.
      cbn [results lru_store firstn lru_find]. now rewrite Hkey. }
  assert (Hfound : lru_find args_eqb (results st2) (names, folders) = Some data).
  { apply (run_gets_keeps_entry calls st1 st2 _ _ 1); auto. }
  unfold VariableOverlay_get. rewrite Hhash, Hfound.
  eexists. split; reflexivity.
Qed.

Lemma get_answers_from_cache_witness :
  exists st1 st2 st3,
    VariableOverlay_get example_tree fresh_state (OneStr "prod") (Tuple [])
    = Ok (VDict [("x", VInt 2)], st1)
    /\ run_gets st1 [(example_tree, (Tuple ["test"], OneStr "eu"));
                     (example_tree, (Tuple [], Tuple []))] = Ok st2
    /\ VariableOverlay_get (fun _ _ => None) st2 (OneStr "prod") (Tuple [])
       = Ok (VDict [("x", VInt 2)], st3)
    /\ fragments st3 = fragments st2.
Proof.
  pose (st1 := match VariableOverlay_get example_tree fresh_state
                       (OneStr "prod") (Tuple []) with
               | Ok (_, s) => s
               | Raise _ => fresh_state
               end).
  pose (calls := [(example_tree, (Tuple ["test"], OneStr "eu"));
                  (example_tree, (Tuple [], Tuple []))]).
  pose (st2 := match run_gets st1 calls with
               | Ok s => s
               | Raise _ => fresh_state
               end).
  assert (H : VariableOverlay_get example_tree fresh_state (OneStr "prod") (Tuple [])
              = Ok (VDict [("x", VInt 2)], st1)) by reflexivity.
  assert (Hrun : run_gets st1 calls = Ok st2) by reflexivity.
  assert (Hlen : List.length calls < CACHE_MAXSIZE)
    by (unfold CACHE_MAXSIZE; cbn; lia).
  destruct (get_answers_from_cache example_tree (fun _ _ => None)
              _ _ _ _ _ _ _ H Hlen Hrun) as [st3 [H1 H2]].
  exists st1, st2, st3.
  split; [exact H|]. split; [exact Hrun|]. split; assumption.
Defined.

Lemma lru_store_length {K V : Type} (m : nat) (c : @lru K V) (k : K) (v : V) :
  1 <= m -> List.length (lru_store m c k v) <= m.
Proof.
  intros Hm. unfold lru_store. cbn [List.length].
  pose proof (firstn_le_length (m - 1) c).
  pose proof (length_firstn (m - 1) c). lia.
Qed.

Lemma lru_drop_length {K V : Type} (eqb : K -> K -> bool) (c : @lru K V)
    (k : K) (v : V) :
  lru_find eqb c k = Some v -> S (List.length (lru_drop eqb c k)) <= List.length c.
Proof.
  unfold lru_drop.
  induction c as [|[k0 v0] c IH]; simpl; [discriminate|].
  destruct (eqb k0 k); simpl.
  - intros _. pose proof (filter_length_le (fun e => negb (eqb (fst e) k)) c).
    lia.
  - intros H. specialize (IH H). lia.
Qed.

Lemma lru_hit_length {K V : Type} (eqb : K -> K -> bool) (c : @lru K V)
    (k : K) (v v' : V) :
  lru_find eqb c k = Some v -> List.length (lru_hit eqb c k v') <= List.length c.
Proof.
  intros H. unfold lru_hit. cbn [List.length]. eapply lru_drop_length; eauto.
Qed.

Lemma pair_eqb_refl (p : string * string) : pair_eqb p p = true.
Proof. now apply pair_eqb_eq. Qed.

Lemma _get_data_bound (fs : file_tree) (c c1 : data_cache) (path name : string)
    (u : value) :
  List.length c <= CACHE_MAXSIZE ->
  _get_data fs c path name = Ok (u, c1) ->
  List.length c1 <= CACHE_MAXSIZE
  /\ lru_find pair_eqb c1 (path, name) = Some u.
Proof.
  intros Hc H. unfold _get_data in H.
  destruct (lru_find pair_eqb c (path, name)) as [v|] eqn:E.
  - inversion H; subst. split.
    + pose proof (lru_hit_length pair_eqb c (path, name) u u E). lia.
    + unfold lru_hit. cbn [lru_find]. now rewrite pair_eqb_refl.
  - bind_inv H. inversion H; subst. split.
    + apply lru_store_length. unfold CACHE_MAXSIZE. lia.
    + unfold lru_store. cbn [lru_find]. now rewrite pair_eqb_refl.
Qed.

Lemma get_step_bound (fs : file_tree) (folder name : string)
    (data data' : value) (c c' : data_cache) :
  List.length c <= CACHE_MAXSIZE ->
  get_step fs folder name (Ok (data, c)) = Ok (data', c') ->
  List.length c' <= CACHE_MAXSIZE.
Proof.
  intros Hc H. unfold get_step in H. cbn [bind] in H.
  bind_inv H. destruct a as [u c1]. bind_inv H. inversion H; subst.
  destruct (_get_data_bound _ _ _ _ _ _ Hc Ha) as [H1 H2].
  pose proof (lru_hit_length pair_eqb c1 (folder, name) u
                (update_popped DEFAULT_METADATA_KEY u) H2).
  lia.
Qed.

Lemma get_steps_bound (fs : file_tree) (order : list (string * string)) :
  forall data c data' c',
    List.length c <= CACHE_MAXSIZE ->
    fold_left (fun acc p => get_step fs (fst p) (snd p) acc) order (Ok (data, c))
    = Ok (data', c') ->
    List.length c' <= CACHE_MAXSIZE.
Proof.
  induction order as [|p rest IH]; intros data c data' c' Hc H;
    cbn [fold_left] in H.
  - now inversion H; subst.
  - destruct (get_step fs (fst p) (snd p) (Ok (data, c))) as [[d1 c1]|e] eqn:E.
    + eapply IH; [|exact H]. eapply get_step_bound; eauto.
    + rewrite fold_left_raise in H; [discriminate | reflexivity].
Qed.

(** X14.  The two caches never grow beyond 128 entries: when they hold at
    most that many before a call of [get] that returns, they hold at most
    that many after it. *)
Theorem caches_bounded :
  forall (fs : file_tree) (st st' : overlay_state)
         (names folders : str_or_tuple) (data : value),
    List.length (fragments st) <= CACHE_MAXSIZE ->
    List.length (results st) <= CACHE_MAXSIZE ->
    VariableOverlay_get fs st names folders = Ok (data, st') ->
    List.length (fragments st') <= CACHE_MAXSIZE
    /\ List.length (results st') <= CACHE_MAXSIZE.
Proof.
  intros fs st st' names folders data Hf Hr H.
  unfold VariableOverlay_get in H.
  destruct (negb (hashable_arg names && hashable_arg folders)); [discriminate|].
  destruct (lru_find args_eqb (results st) (names, folders)) as [old|] eqn:E.
  - inversion H; subst. cbn [fragments results]. split; auto.
    pose proof (lru_hit_length args_eqb (results st) (names, folders) data data E).
    lia.
  - bind_inv H. destruct a as [data' c]. inversion H; subst.
    cbn [fragments results]. split.
    + rewrite get_body_order in Ha. eapply get_steps_bound; eauto.
    + apply lru_store_length. unfold CACHE_MAXSIZE. lia.
Qed.

Lemma caches_bounded_witness :
  exists st',
    VariableOverlay_get example_tree fresh_state (Tuple ["prod"]) (Tuple ["sub"])
    = Ok (VDict [("x", VInt 2)], st')
    /\ List.length (fragments st') <= CACHE_MAXSIZE
    /\ List.length (results st') <= CACHE_MAXSIZE.
Proof.
  eexists.
  assert (H : VariableOverlay_get example_tree fresh_state
                (Tuple ["prod"]) (Tuple ["sub"])
              = Ok (VDict [("x", VInt 2)], _)) by reflexivity.
  split; [exact H|].
  apply (caches_bounded example_tree fresh_state _ _ _ _) in H;
    [exact H | simpl; lia | simpl; lia].
Defined.

Lemma all_empty_find (c : data_cache) (p : string * string) (v : value) :
  all_empty c = true -> lru_find pair_eqb c p = Some v -> v = VDict [].
Proof.
  unfold all_empty.
  induction c as [|[q x] c IH]; simpl; [discriminate|].
  intros H. apply andb_true_iff in H. destruct H as [Hx Hc].
  destruct (pair_eqb q p); auto.
  intros E. inversion E; subst.
  destruct v as [| | | | |[|]|]; try discriminate. reflexivity.
Qed.

Lemma all_empty_firstn (c : data_cache) (n : nat) :
  all_empty c = true -> all_empty (firstn n c) = true.
Proof.
  unfold all_empty. revert n.
  induction c as [|e c IH]; intros [|n]; simpl; auto.
  intros H. apply andb_true_iff in H. destruct H as [He Hc].
  rewrite He. simpl. auto.
Qed.

Lemma all_empty_drop (c : data_cache) (p : string * string) :
  all_empty c = true -> all_empty (lru_drop pair_eqb c p) = true.
Proof.
  unfold all_empty, lru_drop.
  induction c as [|e c IH]; simpl; auto.
  intros H. apply andb_true_iff in H. destruct H as [He Hc].
  destruct (negb (pair_eqb (fst e) p)); simpl; auto.
  rewrite He. simpl. auto.
Qed.

Lemma get_step_nothing (folder name : string) (c : data_cache) :
  all_empty c = true ->
  exists c',
    get_step (fun _ _ => None) folder name (Ok (VDict [], c)) = Ok (VDict [], c')
    /\ all_empty c' = true.
Proof.
  intros Hc. unfold get_step, _get_data. cbn [bind].
  destruct (lru_find pair_eqb c (folder, name)) as [v|] eqn:E.
  - rewrite (all_empty_find _ _ _ Hc E). cbn [bind].
    eexists. split; [reflexivity|].
    unfold lru_hit.
    change (all_empty ((?p, VDict []) :: ?l)) with (all_empty l).
    apply all_empty_drop.
    change (all_empty ((?p, VDict []) :: ?l)) with (all_empty l).
    now apply all_empty_drop.
  - cbn [bind]. eexists. split; [reflexivity|].
    unfold lru_hit, lru_store.
    change (all_empty ((?p, VDict []) :: ?l)) with (all_empty l).
    apply all_empty_drop.
    change (all_empty ((?p, VDict []) :: ?l)) with (all_empty l).
    now apply all_empty_firstn.
Qed.

Lemma get_steps_nothing (order : list (string * string)) :
  forall c,
    all_empty c = true ->
    returned
      (fold_left (fun acc p => get_step (fun _ _ => None) (fst p) (snd p) acc)
         order (Ok (VDict [], c)))
    = Ok (VDict []).
Proof.
  induction order as [|p rest IH]; intros c Hc; cbn [fold_left].
  - reflexivity.
  - destruct (get_step_nothing (fst p) (snd p) c Hc) as [c' [-> Hc']].
    now apply IH.
Qed.

(** X15.  In a folder tree without any fragment file, [get] returns an
    empty mapping for whatever names and sub-folders it is given, also when
    names are repeated. *)
Theorem get_without_files :
  forall (st : overlay_state) (names folders : str_or_tuple),
    hashable_arg names = true ->
    hashable_arg folders = true ->
    lru_find args_eqb (results st) (names, folders) = None ->
    all_empty (fragments st) = true ->
    returned (VariableOverlay_get (fun _ _ => None) st names folders)
    = Ok (VDict []).
Proof.
  intros st names folders Hn Hf Hmiss Hc.
  unfold VariableOverlay_get. rewrite Hn, Hf, Hmiss. cbn [andb negb].
  pose proof (get_steps_nothing
                (fragment_order (as_tuple names) (as_tuple folders))
                (fragments st) Hc) as H.
  rewrite <- get_body_order in H.
  destruct (get_body (fun _ _ => None) (fragments st) names folders)
    as [[data c]|e]; cbn [bind returned] in *; auto.
Qed.

Lemma get_without_files_witness :
  returned (VariableOverlay_get (fun _ _ => None) fresh_state
              (Tuple ["prod"; "prod"]) (OneStr "eu"))
  = Ok (VDict []).
Proof.
  apply get_without_files; reflexivity.
Defined.

(** * The env format *)

Lemma split_lines_nonempty (s : string) : split_lines s <> [].
Proof.
  induction s as [|c s IH]; simpl; [discriminate|].
  destruct (Ascii.eqb c char_newline); [discriminate|].
  destruct (split_lines s); [contradiction | discriminate].
Qed.

(** Splitting what is joined by a newline gives the lines of both parts. *)
Lemma split_lines_app (a b : string) :
  split_lines (a ++ String char_newline b)
  = (split_lines a ++ split_lines b)%list.
Proof.
  induction a as [|c a IH]; cbn [append split_lines].
  - now rewrite Ascii.eqb_refl.
  - rewrite IH. destruct (Ascii.eqb c char_newline); auto.
    pose proof (split_lines_nonempty a).
    destruct (split_lines a); [contradiction | reflexivity].
Qed.

Lemma split_lines_one (s : string) :
  str_contains_char char_newline s = false -> split_lines s = [s].
Proof.
  induction s as [|c s IH]; cbn [split_lines str_contains_char]; auto.
  intros H. apply orb_false_iff in H. destruct H as [Hc Hs].
  rewrite Hc, IH; auto.
Qed.

Lemma split_once_none (c : ascii) (s : string) :
  str_contains_char c s = false -> split_once c s = None.
Proof.
  induction s as [|x s IH]; cbn [split_once str_contains_char]; auto.
  intros H. apply orb_false_iff in H. destruct H as [Hx Hs].
  rewrite Hx, IH; auto.
Qed.

Lemma split_once_first (c : ascii) (k v : string) :
  str_contains_char c k = false ->
  split_once c (k ++ String c v) = Some (k, v).
Proof.
  induction k as [|x k IH]; cbn [append split_once str_contains_char].
  - now rewrite Ascii.eqb_refl.
  - intros H. apply orb_false_iff in H. destruct H as [Hx Hk].
    rewrite Hx, IH; auto.
Qed.

Lemma lstrip_contains (c : ascii) (s : string) :
  str_contains_char c s = false -> str_contains_char c (lstrip s) = false.
Proof.
  induction s as [|x s IH]; cbn [lstrip]; auto.
  intros H. destruct (is_space x); auto.
  cbn [str_contains_char] in H. apply orb_false_iff in H. now apply IH.
Qed.

Lemma parse_env_line_skipped (acc : dict) (line : string) :
  env_skipped line = true -> _parse_env_line acc line = acc.
Proof.
  unfold env_skipped, _parse_env_line. intros H.
  destruct (startswith_char "#" (lstrip line)); auto.
  cbn [negb orb] in *. apply negb_true_iff in H.
  now rewrite (split_once_none _ _ (lstrip_contains _ _ H)).
Qed.

(** A line [key=value] with a key that goes through unchanged. *)
Lemma parse_env_line_item (acc : dict) (k v : string) :
  env_key k = true ->
  _parse_env_line acc (k ++ String "=" v) = dict_set acc k (VStr v).
Proof.
  unfold env_key. intros H.
  apply andb_true_iff in H. destruct H as [H Hfirst].
  apply andb_true_iff in H. destruct H as [Heq _].
  apply negb_true_iff in Heq.
  unfold _parse_env_line.
  assert (Hl : lstrip (k ++ String "=" v) = k ++ String "=" v).
  { destruct k as [|c k]; [reflexivity|].
    apply andb_true_iff in Hfirst. destruct Hfirst as [Hsp _].
    apply negb_true_iff in Hsp. cbn [append lstrip]. now rewrite Hsp. }
  rewrite Hl.
  assert (Hc : startswith_char "#" (k ++ String "=" v) = false).
  { destruct k as [|c k]; [reflexivity|].
    apply andb_true_iff in Hfirst. destruct Hfirst as [_ Hh].
    now apply negb_true_iff in Hh. }
  rewrite Hc. cbn [negb].
  now rewrite split_once_first.
Qed.

(** X16.  A line that is a comment or has no equals sign changes nothing in
    what [parse_env] reads, wherever it stands. *)
Theorem env_lines_skipped :
  forall (before junk after : string),
    str_contains_char char_newline junk = false ->
    env_skipped junk = true ->
    parse_env (before ++ String char_newline (junk ++ String char_newline after))
    = parse_env (before ++ String char_newline after).
Proof.
  intros before junk after Hn Hs. unfold parse_env. f_equal.
  rewrite !split_lines_app, (split_lines_one _ Hn).
  rewrite !fold_left_app. cbn [fold_left].
  now rewrite parse_env_line_skipped.
Qed.

Lemma env_lines_skipped_witness :
  parse_env ("a=1" ++ String char_newline
               ("   # b=2" ++ String char_newline "c=3"))
  = parse_env ("a=1" ++ String char_newline "c=3").
Proof.
  apply env_lines_skipped; reflexivity.
Defined.

(** X17.  The last line [key=value] of the text decides what the key is
    bound to, whatever stands before it; the value is all that follows the
    first equals sign, further equals signs included. *)
Theorem env_last_line_wins :
  forall (before k v : string),
    env_key k = true ->
    str_contains_char char_newline v = false ->
    exists d,
      parse_env (before ++ String char_newline (k ++ String "=" v)) = VDict d
      /\ dict_get d k = Some (VStr v).
Proof.
  intros before k v Hk Hv. unfold parse_env.
  eexists. split; [reflexivity|].
  rewrite split_lines_app, fold_left_app.
  rewrite split_lines_one.
  - cbn [fold_left]. rewrite parse_env_line_item by assumption.
    apply dict_get_set_same.
  - rewrite str_contains_char_append. cbn [str_contains_char].
    unfold env_key in Hk.
    apply andb_true_iff in Hk. destruct Hk as [Hk _].
    apply andb_true_iff in Hk. destruct Hk as [_ Hk].
    apply negb_true_iff in Hk. rewrite Hk, Hv. reflexivity.
Qed.

Lemma env_last_line_wins_witness :
  exists d,
    parse_env ("k=old" ++ String char_newline ("k" ++ String "=" "a=b=c"))
    = VDict d
    /\ dict_get d "k" = Some (VStr "a=b=c").
Proof.
  apply env_last_line_wins; reflexivity.
Defined.

Lemma string_append_assoc (a b c : string) : (a ++ b) ++ c = a ++ (b ++ c).
Proof.
  induction a as [|x a IH]; cbn [append]; [reflexivity | now rewrite IH].
Qed.

(** What the loop of [output_env] has written after the items. *)
Lemma output_env_text (items : list (string * value)) (out : string) :
  fold_left
    (fun out kv =>
       out ++ fst kv ++ "=" ++ py_str (snd kv) ++ String char_newline "")
    items out
  = out ++ env_text items.
Proof.
  revert out. induction items as [|[k v] rest IH]; intros out;
    cbn [fold_left env_text fst snd].
  - clear. induction out as [|c out IH]; cbn [append]; [|rewrite <- IH];
      reflexivity.
  - rewrite IH. rewrite !string_append_assoc. cbn [append].
    rewrite ?string_append_assoc. reflexivity.
Qed.

Lemma mem_string_neq (k k' : string) (l : list string) :
  mem_string k l = false -> mem_string k' l = true -> k <> k'.
Proof.
  intros H H' ->. congruence.
Qed.

(** Reading the lines of the items back, on top of what was read before. *)
Lemma parse_env_text (items : list (string * value)) :
  forall acc : dict,
    forallb env_item items = true ->
    unique_keys items = true ->
    (forall k, mem_string k (dict_keys items) = true -> dict_get acc k = None) ->
    fold_left _parse_env_line (split_lines (env_text items)) acc
    = (acc ++ env_strings items)%list.
Proof.
  induction items as [|[k v] rest IH]; intros acc Hit Hu Hfresh.
  - cbn. now rewrite app_nil_r.
  - cbn [forallb] in Hit. apply andb_true_iff in Hit. destruct Hit as [Hkv Hit].
    unfold env_item in Hkv. cbn [fst snd] in Hkv.
    apply andb_true_iff in Hkv. destruct Hkv as [Hk Hv].
    apply negb_true_iff in Hv.
    unfold unique_keys in Hu. cbn [dict_keys map fst unique_strings] in Hu.
    apply andb_true_iff in Hu. destruct Hu as [Hnk Hu].
    apply negb_true_iff in Hnk.
    cbn [env_text]. rewrite split_lines_app, fold_left_app.
    assert (Hline : str_contains_char char_newline (k ++ "=" ++ py_str v) = false).
    { rewrite str_contains_char_append. cbn [append str_contains_char].
      unfold env_key in Hk.
      apply andb_true_iff in Hk. destruct Hk as [Hk _].
      apply andb_true_iff in Hk. destruct Hk as [_ Hk].
      apply negb_true_iff in Hk. rewrite Hk, Hv. reflexivity. }
    rewrite (split_lines_one _ Hline). cbn [fold_left append].
    rewrite parse_env_line_item by assumption.
    rewrite dict_set_fresh.
    + rewrite IH; auto.
      * cbn [env_strings map fst snd]. now rewrite <- app_assoc.
      * intros k' Hk'. apply dict_get_app_fresh.
        -- apply (mem_string_neq _ _ _ Hnk Hk').
        -- apply Hfresh. cbn [dict_keys map fst mem_string].
           change (map fst rest) with (dict_keys rest). rewrite Hk'.
           apply orb_true_r.
    + apply Hfresh. cbn [dict_keys map fst mem_string].
      now rewrite String.eqb_refl.
Qed.

(** X18.  Round trip through the env format: for a mapping without repeated
    keys whose keys and values fit on a line, [parse_env] reads from what
    [output_env] wrote the same keys in the same order, each bound to the
    string of its value. *)
Theorem env_round_trip :
  forall items : list (string * value),
    unique_keys items = true ->
    forallb env_item items = true ->
    exists text,
      output_env (VDict items) = Ok text
      /\ parse_env text = VDict (env_strings items).
Proof.
  intros items Hu Hit. eexists. split; [reflexivity|].
  rewrite output_env_text. cbn [append].
  unfold parse_env. f_equal.
  now rewrite parse_env_text.
Qed.

Lemma env_round_trip_witness :
  exists text,
    output_env (VDict [("a", VInt 1); ("b", VStr "x=y"); ("c", VNone)])
    = Ok text
    /\ parse_env text
       = VDict (env_strings [("a", VInt 1); ("b", VStr "x=y"); ("c", VNone)]).
Proof.
  apply env_round_trip; reflexivity.
Defined.

(** * The format of a source *)

(** Before the last dot of the source the group finds no end. *)
Lemma ext_group_blocked (stem t : string) :
  str_contains_char "?" stem = false ->
  ext_group (stem ++ String "." t) = None.
Proof.
  induction stem as [|c stem IH]; intros H; cbn [append ext_group].
  - reflexivity.
  - cbn [str_contains_char] in H. apply orb_false_iff in H.
    destruct H as [_ H]. rewrite (IH H).
    destruct (ext_char c); [|reflexivity].
    assert (E : ext_end (stem ++ String "." t) = false).
    { destruct stem as [|c2 stem']; cbn [append ext_end]; [reflexivity|].
      cbn [str_contains_char] in H. apply orb_false_iff in H.
      destruct H as [H2 _]. rewrite H2. cbn [orb].
      destruct stem'; cbn [append String.eqb]; apply andb_false_r. }
    now rewrite E.
Qed.

(** After the last dot the group takes the whole extension. *)
Lemma ext_group_found (e q : string) :
  plain_ext e = true -> query_part q = true -> ext_group (e ++ q) = Some e.
Proof.
  intros He Hq. induction e as [|c e IH]; [discriminate|].
  unfold plain_ext in He. cbn [String.eqb negb andb ext_chars] in He.
  apply andb_true_iff in He. destruct He as [Hc He].
  cbn [append ext_group]. rewrite Hc.
  destruct e as [|c' e'].
  - cbn [append]. destruct q as [|x q']; [reflexivity|].
    cbn [query_part] in Hq. apply Ascii.eqb_eq in Hq. subst x. reflexivity.
  - rewrite IH; [reflexivity|].
    unfold plain_ext. cbn [String.eqb negb andb]. exact He.
Qed.

Lemma REGEX_EXTENSION_match_found (stem e q : string) :
  str_contains_char "?" stem = false ->
  str_contains_char char_newline stem = false ->
  plain_ext e = true ->
  query_part q = true ->
  REGEX_EXTENSION_match (stem ++ String "." (e ++ q)) = Some e.
Proof.
  intros Hs Hn He Hq.
  induction stem as [|c stem IH]; cbn [append REGEX_EXTENSION_match].
  - rewrite Ascii.eqb_refl. now rewrite ext_group_found.
  - cbn [str_contains_char] in Hs, Hn.
    apply orb_false_iff in Hs. destruct Hs as [_ Hs].
    apply orb_false_iff in Hn. destruct Hn as [Hc Hn].
    rewrite (ext_group_blocked _ _ Hs), Hc.
    rewrite (IH Hs Hn). now destruct (Ascii.eqb c ".").
Qed.

Lemma REGEX_EXTENSION_match_no_dot (s : string) :
  str_contains_char "." s = false -> REGEX_EXTENSION_match s = None.
Proof.
  induction s as [|c s IH]; intros H; cbn [REGEX_EXTENSION_match]; auto.
  cbn [str_contains_char] in H. apply orb_false_iff in H.
  destruct H as [Hc H]. rewrite Hc, (IH H).
  now destruct (Ascii.eqb c char_newline).
Qed.

(** X19.  For a source [stem.ext] or [stem.ext?query], [REGEX_EXTENSION]
    captures [ext]: the stem may hold dots and slashes, but no question
    mark and no newline; the extension is not empty and holds no dot,
    question mark or slash; the query may hold anything. *)
Theorem extension_captured :
  forall (stem e q : string),
    str_contains_char "?" stem = false ->
    str_contains_char char_newline stem = false ->
    plain_ext e = true ->
    query_part q = true ->
    REGEX_EXTENSION_match (stem ++ String "." (e ++ q)) = Some e.
Proof.
  exact REGEX_EXTENSION_match_found.
Qed.

Lemma extension_captured_witness :
  REGEX_EXTENSION_match
    ("http://host.org/a.b/conf" ++ String "." ("yaml" ++ "?v=1.2"))
  = Some "yaml".
Proof.
  apply extension_captured; reflexivity.
Defined.

(** X20.  The extension of a source decides its format, whether the source
    is a URL or not: a known extension selects its parser, any other one is
    refused, also for a URL. *)
Theorem extension_decides_format :
  forall (is_url : string -> bool) (stem e q : string),
    str_contains_char "?" stem = false ->
    str_contains_char char_newline stem = false ->
    plain_ext e = true ->
    query_part q = true ->
    not_inline (stem ++ String "." (e ++ q)) = true ->
    format_of_source is_url (stem ++ String "." (e ++ q))
    = if existsb (String.eqb e) INPUT_FORMATS then FormatOf e
      else Unsupported e.
Proof.
  intros is_url stem e q Hs Hn He Hq Hi.
  unfold format_of_source. unfold not_inline in Hi.
  apply negb_true_iff in Hi. rewrite Hi.
  now rewrite REGEX_EXTENSION_match_found by assumption.
Qed.

Lemma extension_decides_format_witness :
  format_of_source (fun _ => true)
    ("http://host.org/conf" ++ String "." ("txt" ++ "?raw"))
  = Unsupported "txt".
Proof.
  apply (extension_decides_format (fun _ => true) "http://host.org/conf"
           "txt" "?raw"); reflexivity.
Defined.

(** X21.  A source without any dot has no extension: it is read as JSON
    when it is a URL and refused otherwise. *)
Theorem source_without_extension :
  forall (is_url : string -> bool) (source : string),
    str_contains_char "." source = false ->
    not_inline source = true ->
    format_of_source is_url source
    = if is_url source then FormatOf "json" else Unsupported "unknown".
Proof.
  intros is_url source Hd Hi.
  unfold format_of_source. unfold not_inline in Hi.
  apply negb_true_iff in Hi. rewrite Hi.
  rewrite REGEX_EXTENSION_match_no_dot by assumption.
  now destruct (is_url source).
Qed.

Lemma source_without_extension_witness :
  format_of_source (fun _ => false) "conf/settings"
  = Unsupported "unknown".
Proof.
  apply (source_without_extension (fun _ => false) "conf/settings");
    reflexivity.
Defined.
